(** * The implicit linear MPM solver: step orchestration

    A shallow embedding of [include/solvers/mpm_implicit_linear.tcc]:
    [MPMImplicitLinear::compute_stress_strain] and
    [MPMImplicitLinear::solve].

    The solver drives collaborators that live in other translation units
    (the mesh, the particles, the Newmark scheme, the base solver, the
    run configuration reader).  They enter the development as interfaces
    (type classes); every call the solver makes to them is also recorded,
    with its arguments, in a call log carried by the solver state, so that
    ordering properties can be stated on the log and frame properties on
    the state.

    Console output and wall-clock measurement ([console_->info],
    [std::chrono]) are observation only and are left out, and with them
    the locals [mpi_rank] and [mpi_size], which the function reads for
    nothing else.  Calls into the collaborators are taken to return; of
    the solver's own members they leave [step_], [pressure_smoothing_]
    and [interface_] alone, except for [checkpoint_resume], which sets
    [step_]. *)

From Stdlib Require Import List NArith ZArith Bool String Lia.
From ExtLib Require Import Structures.Monad Structures.MonadState
  Structures.MonadExc Data.Monads.StateMonad Data.Monads.EitherMonad.
Import ListNotations.
Import MonadNotation.

#[local] Open Scope string_scope.
#[local] Open Scope list_scope.
#[local] Open Scope N_scope.
#[local] Open Scope monad_scope.
#[local] Existing Instance Monad_stateT.
#[local] Set Warnings "-register-all".

(** ** Preprocessor configuration

    The function is compiled under four macros.  The distributed code
    paths sit inside [#ifdef USE_MPI] / [#ifdef USE_GRAPH_PARTITIONING]
    nested pairs, so they are present when both are defined. *)

Record Build := {
  USE_MPI : bool;
  USE_GRAPH_PARTITIONING : bool;
  USE_VTK : bool;
  USE_PARTIO : bool
}.

Definition graph_partitioning (b : Build) : bool :=
  USE_MPI b && USE_GRAPH_PARTITIONING b.

(** ** The configuration document

    [analysis_] is a JSON value; [solve] uses [find], the non-const
    [operator[]] and [get<bool>] on it.  [operator[]] on a null value
    turns it into an object, a missing key is inserted holding null, and
    every other non-object value raises [type_error] 305; [get<bool>] on a
    value that is not a boolean raises [type_error] 302.  Only the value
    read is modelled: the insertions happen on paths that end in the
    exception. *)

Module Json.

Inductive json :=
| null
| boolean (b : bool)
| number (z : Z)
| text (s : string)
| array (l : list json)
| object (members : list (string * json)).

Inductive exception := type_error (id : N).

Fixpoint lookup (key : string) (members : list (string * json)) : option json :=
  match members with
  | [] => None
  | (k, v) :: rest => if String.eqb k key then Some v else lookup key rest
  end.

(** [j.find(key) != j.end()] holds exactly when [find key j] is [Some]. *)
Definition find (key : string) (j : json) : option json :=
  match j with
  | object members => lookup key members
  | _ => None
  end.

(** [j[key]] *)
Definition at_key (key : string) (j : json) : exception + json :=
  match j with
  | null => inr null
  | object members =>
      inr (match lookup key members with Some v => v | None => null end)
  | _ => inl (type_error 305)
  end.

(** [j.get<bool>()] *)
Definition get_bool (j : json) : exception + bool :=
  match j with
  | boolean b => inr b
  | _ => inl (type_error 302)
  end.

End Json.

(** ** Value types owned by the collaborators

    The solver only passes these around.  [mul_step_dt] is the
    floating-point product [step_ * dt_]. *)

Class Domain := {
  real : Type;
  vector : Type;
  VelocityUpdate : Type;
  ConcentratedForce : Type;
  LocatePolicy : Type;
  Particle : Type;
  Background : Type;
  File : Type;
  mul_step_dt : N -> real -> real
}.

(** Everything the collaborators own: the particle population and the rest
    (nodes, cells, rank ownership, materials, constraints, loads). *)
Record World `{Domain} := {
  particles : list Particle;
  background : Background
}.

(** ** The call log *)

Module Call.

(** The member function bound by [std::bind] for a particle sweep. *)
Inductive particle_fn `{Domain} :=
| compute_mass
| compute_strain (dt : real)
| update_volume
| compute_stress.

Inductive t `{Domain} :=
| initialise_materials
| initialise_mesh
| initialise_particle_types
| checkpoint_resume
| resume_domain_cell_ranks
| MPI_Barrier
| particle_entity_sets (flag : bool)
| particle_velocity_constraints
| initialise_particles
| iterate_over_particles (f : particle_fn)
| mpi_domain_decompose (initial : bool)
| initialise_loads
| inject_particles (time : real)
| scheme_initialise
| compute_nodal_kinematics (phase : N)
| update_nodal_kinematics_newmark (phase : N) (beta gamma : real)
| compute_forces (gravity : vector) (phase : N) (step : N)
    (concentrated : ConcentratedForce)
| compute_particle_kinematics (velocity_update : VelocityUpdate) (phase : N)
    (damping_type : string) (damping_factor : real)
| postcompute_stress_strain (phase : N) (pressure_smoothing : bool)
| locate_particles (policy : LocatePolicy)
| transfer_halo_particles
| pressure_smoothing (phase : N)
| write_hdf5 (step nsteps : N)
| write_vtk (step nsteps : N)
| write_partio (step nsteps : N).

End Call.

(** ** Collaborator interfaces *)

(** [mpm::ParticleBase]: the four member functions swept over the
    particles.  Each acts on the particle it is called on and reads the
    mesh through the particle's cell and node references. *)
Class ParticleBase `{Domain} := {
  compute_mass : Background -> Particle -> Particle;
  compute_strain : real -> Background -> Particle -> Particle;
  update_volume : Background -> Particle -> Particle;
  compute_stress : Background -> Particle -> Particle
}.

(** [mpm::Mesh], reached through [mesh_]. *)
Class Mesh `{Domain} := {
  resume_domain_cell_ranks : World -> World;
  inject_particles : real -> World -> World;
  transfer_halo_particles : World -> World
}.

(** [mpm::MPMSchemeNewmark], reached through [mpm_scheme_]. *)
Class MPMScheme `{Domain} := {
  initialise : World -> World;
  compute_nodal_kinematics : N -> World -> World;
  update_nodal_kinematics_newmark : N -> real -> real -> World -> World;
  compute_forces : vector -> N -> N -> ConcentratedForce -> World -> World;
  compute_particle_kinematics :
    VelocityUpdate -> N -> string -> real -> World -> World;
  postcompute_stress_strain : N -> bool -> World -> World;
  locate_particles : LocatePolicy -> World -> World
}.

(** [mpm::MPMBase], the base class of the solver.  [read_checkpoint] and
    the three [render_] functions are the external parts of
    [checkpoint_resume] and of the output writers, see below. *)
Class MPMBase `{Domain} := {
  initialise_materials : World -> World;
  initialise_mesh : World -> World;
  initialise_particle_types : World -> World;
  read_checkpoint : World -> option (N * World);
  particle_entity_sets : bool -> World -> World;
  particle_velocity_constraints : World -> World;
  initialise_particles : World -> World;
  mpi_domain_decompose : bool -> World -> World;
  initialise_loads : World -> World;
  pressure_smoothing : N -> World -> World;
  render_hdf5 : World -> N -> N -> File;
  render_vtk : World -> N -> N -> File;
  render_partio : World -> N -> N -> File
}.

(** ** Solver object *)

(** Members set at construction and only read by [solve].  The step
    counters are unsigned; the only arithmetic on them is [%] and a [++]
    guarded by [step_ < nsteps_], which cannot wrap, so they are modelled
    in [N]. *)
Record Config `{Domain} := {
  analysis_ : Json.json;
  io_analysis_bool : string -> bool;
  nsteps_ : N;
  output_steps_ : N;
  nload_balance_steps_ : N;
  dt_ : real;
  newmark_beta_ : real;
  newmark_gamma_ : real;
  gravity_ : vector;
  set_node_concentrated_force_ : ConcentratedForce;
  velocity_update_ : VelocityUpdate;
  damping_factor_ : real;
  locate_particles_ : LocatePolicy;
  (** Modelled from the spec: the run configuration recognises a damping
      type next to the damping factor.  No statement of [solve] reads
      it. *)
  damping_type_ : string
}.

(** Members written while [solve] runs, the collaborators' state, the
    files produced so far and the call log. *)
Record Solver `{Domain} := {
  step_ : N;
  pressure_smoothing_ : bool;
  interface_ : bool;
  world : World;
  outputs : list File;
  calls : list Call.t
}.

(** What ends a run early: an exception of the JSON library, a remainder
    by zero (undefined behaviour), or the model's loop running out of
    fuel. *)
Inductive Fault :=
| json_exception (e : Json.exception)
| modulo_by_zero
| fuel_exhausted.

Section Solver.

Context {D : Domain} {particle_ops : ParticleBase} {mesh_ops : Mesh}
  {scheme_ops : MPMScheme} {base_ops : MPMBase}.

Definition M : Type -> Type := stateT Solver (sum Fault).

Definition run {A} (c : M A) (s : Solver) : Fault + (A * Solver) :=
  runStateT c s.

(** A call into a collaborator: logged, then applied to their state. *)
Definition call (c : Call.t) (f : World -> World) : M unit :=
  modify (fun s =>
    {| step_ := step_ s;
       pressure_smoothing_ := pressure_smoothing_ s;
       interface_ := interface_ s;
       world := f (world s);
       outputs := outputs s;
       calls := calls s ++ [c] |}) ;;
  ret tt.

Definition assign_pressure_smoothing (v : bool) : M unit :=
  modify (fun s =>
    {| step_ := step_ s;
       pressure_smoothing_ := v;
       interface_ := interface_ s;
       world := world s;
       outputs := outputs s;
       calls := calls s |}) ;;
  ret tt.

Definition assign_interface (v : bool) : M unit :=
  modify (fun s =>
    {| step_ := step_ s;
       pressure_smoothing_ := pressure_smoothing_ s;
       interface_ := v;
       world := world s;
       outputs := outputs s;
       calls := calls s |}) ;;
  ret tt.

(** [++step_] *)
Definition increment_step : M unit :=
  modify (fun s =>
    {| step_ := N.succ (step_ s);
       pressure_smoothing_ := pressure_smoothing_ s;
       interface_ := interface_ s;
       world := world s;
       outputs := outputs s;
       calls := calls s |}) ;;
  ret tt.

(** [a % b] on unsigned operands. *)
Definition remainder (a b : N) : M N :=
  if b =? 0 then raise modulo_by_zero else ret (a mod b).

Definition json_value {A} (r : Json.exception + A) : M A :=
  match r with
  | inl e => raise (json_exception e)
  | inr a => ret a
  end.

Definition when (b : bool) (c : M unit) : M unit :=
  if b then c else ret tt.

(** [mesh_->iterate_over_particles(std::bind(f, _1, ...))] *)
Definition sweep (f : Background -> Particle -> Particle) (w : World) : World :=
  {| particles := map (f (background w)) (particles w);
     background := background w |}.

Definition particle_fn_apply (f : Call.particle_fn) :
  Background -> Particle -> Particle :=
  match f with
  | Call.compute_mass => compute_mass
  | Call.compute_strain dt => compute_strain dt
  | Call.update_volume => update_volume
  | Call.compute_stress => compute_stress
  end.

Definition iterate_over_particles (f : Call.particle_fn) : M unit :=
  call (Call.iterate_over_particles f) (sweep (particle_fn_apply f)).

(** [MPI_Barrier(MPI_COMM_WORLD)]: synchronisation, no local change. *)
Definition MPI_Barrier : M unit := call Call.MPI_Barrier (fun w => w).

(** Modelled from the spec: [MPMBase::checkpoint_resume] is not part of
    this translation unit.  It attempts to load a persisted step index
    and particle/domain state and returns a success flag; on success the
    step counter holds the persisted index and the state is the restored
    one, and a missing or corrupt record is never partially applied. *)
Definition checkpoint_resume : M bool :=
  s <- get ;;
  match read_checkpoint (world s) with
  | Some (persisted, restored) =>
      put {| step_ := persisted;
             pressure_smoothing_ := pressure_smoothing_ s;
             interface_ := interface_ s;
             world := restored;
             outputs := outputs s;
             calls := calls s ++ [Call.checkpoint_resume] |} ;;
      ret true
  | None =>
      put {| step_ := step_ s;
             pressure_smoothing_ := pressure_smoothing_ s;
             interface_ := interface_ s;
             world := world s;
             outputs := outputs s;
             calls := calls s ++ [Call.checkpoint_resume] |} ;;
      ret false
  end.

(** Modelled from the spec: the output writers [write_hdf5],
    [write_vtk] and [write_partio] of [MPMBase] are not part of this
    translation unit.  Each is handed the step index and the step count
    and consumes the current particle and mesh state read-only; what it
    produces is a file. *)
Definition writer (c : Call.t) (render : World -> N -> N -> File)
    (step nsteps : N) : M unit :=
  modify (fun s =>
    {| step_ := step_ s;
       pressure_smoothing_ := pressure_smoothing_ s;
       interface_ := interface_ s;
       world := world s;
       outputs := outputs s ++ [render (world s) step nsteps];
       calls := calls s ++ [c] |}) ;;
  ret tt.

Definition write_hdf5 (step nsteps : N) : M unit :=
  writer (Call.write_hdf5 step nsteps) render_hdf5 step nsteps.
Definition write_vtk (step nsteps : N) : M unit :=
  writer (Call.write_vtk step nsteps) render_vtk step nsteps.
Definition write_partio (step nsteps : N) : M unit :=
  writer (Call.write_partio step nsteps) render_partio step nsteps.

(** *** [MPMImplicitLinear::compute_stress_strain] *)

Definition compute_stress_strain (cfg : Config) (phase : N) : M unit :=
  iterate_over_particles (Call.compute_strain (dt_ cfg)) ;;
  iterate_over_particles Call.update_volume ;;
  s <- get ;;
  when (pressure_smoothing_ s)
    (call (Call.pressure_smoothing phase) (pressure_smoothing phase)) ;;
  iterate_over_particles Call.compute_stress.

(** *** [MPMImplicitLinear::solve] *)

(** Lines 52-55: the test for a requested resume. *)
Definition resume_option (cfg : Config) : M bool :=
  let resume := false in
  match Json.find "resume" (analysis_ cfg) with
  | Some _ =>
      outer <- json_value (Json.at_key "resume" (analysis_ cfg)) ;;
      inner <- json_value (Json.at_key "resume" outer) ;;
      json_value (Json.get_bool inner)
  | None => ret resume
  end.

(** The body of the main loop, lines 107-176. *)
Definition loop_body (b : Build) (cfg : Config) (phase : N) : M unit :=
  when (graph_partitioning b)
    (s <- get ;;
     r <- remainder (step_ s) (nload_balance_steps_ cfg) ;;
     when ((r =? 0) && negb (step_ s =? 0))
       (call (Call.mpi_domain_decompose false) (mpi_domain_decompose false))) ;;
  s <- get ;;
  call (Call.inject_particles (mul_step_dt (step_ s) (dt_ cfg)))
       (inject_particles (mul_step_dt (step_ s) (dt_ cfg))) ;;
  call Call.scheme_initialise initialise ;;
  call (Call.compute_nodal_kinematics phase) (compute_nodal_kinematics phase) ;;
  call (Call.update_nodal_kinematics_newmark phase (newmark_beta_ cfg)
          (newmark_gamma_ cfg))
       (update_nodal_kinematics_newmark phase (newmark_beta_ cfg)
          (newmark_gamma_ cfg)) ;;
  call (Call.compute_forces (gravity_ cfg) phase (step_ s)
          (set_node_concentrated_force_ cfg))
       (compute_forces (gravity_ cfg) phase (step_ s)
          (set_node_concentrated_force_ cfg)) ;;
  call (Call.update_nodal_kinematics_newmark phase (newmark_beta_ cfg)
          (newmark_gamma_ cfg))
       (update_nodal_kinematics_newmark phase (newmark_beta_ cfg)
          (newmark_gamma_ cfg)) ;;
  call (Call.compute_particle_kinematics (velocity_update_ cfg) phase
          "Cundall" (damping_factor_ cfg))
       (compute_particle_kinematics (velocity_update_ cfg) phase
          "Cundall" (damping_factor_ cfg)) ;;
  call (Call.postcompute_stress_strain phase (pressure_smoothing_ s))
       (postcompute_stress_strain phase (pressure_smoothing_ s)) ;;
  call (Call.locate_particles (locate_particles_ cfg))
       (locate_particles (locate_particles_ cfg)) ;;
  when (graph_partitioning b)
    (call Call.transfer_halo_particles transfer_halo_particles ;;
     MPI_Barrier) ;;
  r <- remainder (step_ s) (output_steps_ cfg) ;;
  when (r =? 0)
    (write_hdf5 (step_ s) (nsteps_ cfg) ;;
     when (USE_VTK b) (write_vtk (step_ s) (nsteps_ cfg)) ;;
     when (USE_PARTIO b) (write_partio (step_ s) (nsteps_ cfg))).

(** [for (; step_ < nsteps_; ++step_) { ... }] *)
Fixpoint main_loop (b : Build) (cfg : Config) (phase : N) (fuel : nat) : M unit :=
  s <- get ;;
  if step_ s <? nsteps_ cfg then
    match fuel with
    | O => raise fuel_exhausted
    | S fuel' =>
        loop_body b cfg phase ;;
        increment_step ;;
        main_loop b cfg phase fuel'
    end
  else ret tt.

Definition solve (b : Build) (cfg : Config) : M bool :=
  let status := true in
  let phase := 0 in
  resume <- resume_option cfg ;;
  assign_pressure_smoothing (io_analysis_bool cfg "pressure_smoothing") ;;
  assign_interface (io_analysis_bool cfg "interface") ;;
  call Call.initialise_materials initialise_materials ;;
  call Call.initialise_mesh initialise_mesh ;;
  resume <-
    (if resume : bool then
       call Call.initialise_particle_types initialise_particle_types ;;
       check_resume <- checkpoint_resume ;;
       ret (if negb check_resume then false else resume)
     else ret resume) ;;
  (if resume : bool then
     call Call.resume_domain_cell_ranks resume_domain_cell_ranks ;;
     when (graph_partitioning b) MPI_Barrier ;;
     call (Call.particle_entity_sets false) (particle_entity_sets false) ;;
     call Call.particle_velocity_constraints particle_velocity_constraints
   else
     call Call.initialise_particles initialise_particles ;;
     iterate_over_particles Call.compute_mass ;;
     let initial_step := if Bool.eqb resume true then false else true in
     call (Call.mpi_domain_decompose initial_step)
          (mpi_domain_decompose initial_step)) ;;
  call Call.initialise_loads initialise_loads ;;
  s <- get ;;
  main_loop b cfg phase (N.to_nat (nsteps_ cfg - step_ s)) ;;
  ret status.

(** ** What one step and one run amount to

    Closed forms for the log, the collaborators' state and the files of a
    step; the lemmas below show that the loop body computes them. *)

Definition load_balance_due (cfg : Config) (step : N) : bool :=
  (step mod nload_balance_steps_ cfg =? 0) && negb (step =? 0).

Definition output_due (cfg : Config) (step : N) : bool :=
  step mod output_steps_ cfg =? 0.

Definition load_balance_calls (b : Build) (cfg : Config) (step : N) : list Call.t :=
  if graph_partitioning b && load_balance_due cfg step
  then [Call.mpi_domain_decompose false] else [].

Definition scheme_calls (cfg : Config) (smoothing : bool) (step : N) : list Call.t :=
  [ Call.inject_particles (mul_step_dt step (dt_ cfg));
    Call.scheme_initialise;
    Call.compute_nodal_kinematics 0;
    Call.update_nodal_kinematics_newmark 0 (newmark_beta_ cfg) (newmark_gamma_ cfg);
    Call.compute_forces (gravity_ cfg) 0 step (set_node_concentrated_force_ cfg);
    Call.update_nodal_kinematics_newmark 0 (newmark_beta_ cfg) (newmark_gamma_ cfg);
    Call.compute_particle_kinematics (velocity_update_ cfg) 0 "Cundall"
      (damping_factor_ cfg);
    Call.postcompute_stress_strain 0 smoothing;
    Call.locate_particles (locate_particles_ cfg) ].

Definition halo_calls (b : Build) : list Call.t :=
  if graph_partitioning b
  then [Call.transfer_halo_particles; Call.MPI_Barrier] else [].

Definition output_calls (b : Build) (cfg : Config) (step : N) : list Call.t :=
  if output_due cfg step
  then Call.write_hdf5 step (nsteps_ cfg)
       :: (if USE_VTK b then [Call.write_vtk step (nsteps_ cfg)] else [])
       ++ (if USE_PARTIO b then [Call.write_partio step (nsteps_ cfg)] else [])
  else [].

Definition step_calls (b : Build) (cfg : Config) (smoothing : bool) (step : N)
  : list Call.t :=
  load_balance_calls b cfg step ++ scheme_calls cfg smoothing step
  ++ halo_calls b ++ output_calls b cfg step.

(** The nine scheme calls of a step, with a slot between [compute_forces]
    and the second Newmark update for the assembly, solve and displacement
    update the source leaves as TODO comments. *)
Definition scheme_world (correction : World -> World) (cfg : Config)
    (smoothing : bool) (step : N) (w : World) : World :=
  locate_particles (locate_particles_ cfg)
    (postcompute_stress_strain 0 smoothing
      (compute_particle_kinematics (velocity_update_ cfg) 0 "Cundall"
         (damping_factor_ cfg)
        (update_nodal_kinematics_newmark 0 (newmark_beta_ cfg) (newmark_gamma_ cfg)
          (correction
            (compute_forces (gravity_ cfg) 0 step (set_node_concentrated_force_ cfg)
              (update_nodal_kinematics_newmark 0 (newmark_beta_ cfg)
                 (newmark_gamma_ cfg)
                (compute_nodal_kinematics 0
                  (initialise
                    (inject_particles (mul_step_dt step (dt_ cfg)) w))))))))).

Definition step_world_with (correction : World -> World) (b : Build)
    (cfg : Config) (smoothing : bool) (step : N) (w : World) : World :=
  let w1 := if graph_partitioning b && load_balance_due cfg step
            then mpi_domain_decompose false w else w in
  let w2 := scheme_world correction cfg smoothing step w1 in
  if graph_partitioning b then transfer_halo_particles w2 else w2.

Definition step_world := step_world_with (fun w => w).

Definition step_outputs (b : Build) (cfg : Config) (step : N) (w : World)
  : list File :=
  if output_due cfg step
  then render_hdf5 w step (nsteps_ cfg)
       :: (if USE_VTK b then [render_vtk w step (nsteps_ cfg)] else [])
       ++ (if USE_PARTIO b then [render_partio w step (nsteps_ cfg)] else [])
  else [].

(** The solver after the loop body, before [++step_]. *)
Definition after_body (b : Build) (cfg : Config) (s : Solver) : Solver :=
  let w := step_world b cfg (pressure_smoothing_ s) (step_ s) (world s) in
  {| step_ := step_ s;
     pressure_smoothing_ := pressure_smoothing_ s;
     interface_ := interface_ s;
     world := w;
     outputs := outputs s ++ step_outputs b cfg (step_ s) w;
     calls := calls s ++ step_calls b cfg (pressure_smoothing_ s) (step_ s) |}.

Definition after_step (b : Build) (cfg : Config) (s : Solver) : Solver :=
  let s' := after_body b cfg s in
  {| step_ := N.succ (step_ s');
     pressure_smoothing_ := pressure_smoothing_ s';
     interface_ := interface_ s';
     world := world s';
     outputs := outputs s';
     calls := calls s' |}.

Fixpoint after_steps (b : Build) (cfg : Config) (k : nat) (s : Solver) : Solver :=
  match k with
  | O => s
  | S k' => after_steps b cfg k' (after_step b cfg s)
  end.

(** The step indices [from], [from + 1], ... ([k] of them). *)
Fixpoint steps_from (from : N) (k : nat) : list N :=
  match k with
  | O => []
  | S k' => from :: steps_from (N.succ from) k'
  end.

(** The indices the loop runs through when it is entered at [from]. *)
Definition remaining_steps (cfg : Config) (from : N) : list N :=
  steps_from from (N.to_nat (nsteps_ cfg - from)).

(** No remainder by zero can be reached. *)
Definition moduli_nonzero (b : Build) (cfg : Config) : Prop :=
  output_steps_ cfg <> 0 /\
  (graph_partitioning b = true -> nload_balance_steps_ cfg <> 0).

(** *** Before the loop: lines 52-101 *)

Definition resume_requested (cfg : Config) : Prop :=
  exists entry,
    Json.find "resume" (analysis_ cfg) = Some entry /\
    Json.find "resume" entry = Some (Json.boolean true).

Definition resume_declined (cfg : Config) : Prop :=
  Json.find "resume" (analysis_ cfg) = None \/
  exists entry,
    Json.find "resume" (analysis_ cfg) = Some entry /\
    Json.find "resume" entry = Some (Json.boolean false).

(** The three ways through the resume test and the resume attempt. *)
Inductive Path :=
| fresh_start
| resume_failed
| resumed (persisted : N).

Definition entry_world (w : World) : World :=
  initialise_mesh (initialise_materials w).

Definition setup_path (requested : bool) (w : World) : Path :=
  if requested then
    match read_checkpoint (initialise_particle_types (entry_world w)) with
    | Some (persisted, _) => resumed persisted
    | None => resume_failed
    end
  else fresh_start.

Definition fresh_calls : list Call.t :=
  [ Call.initialise_particles;
    Call.iterate_over_particles Call.compute_mass;
    Call.mpi_domain_decompose true ].

Definition fresh_world (w : World) : World :=
  mpi_domain_decompose true (sweep compute_mass (initialise_particles w)).

Definition restore_calls (b : Build) : list Call.t :=
  Call.resume_domain_cell_ranks
  :: (if graph_partitioning b then [Call.MPI_Barrier] else [])
  ++ [Call.particle_entity_sets false; Call.particle_velocity_constraints].

Definition restore_world (w : World) : World :=
  particle_velocity_constraints
    (particle_entity_sets false (resume_domain_cell_ranks w)).

Definition setup_calls (b : Build) (p : Path) : list Call.t :=
  [Call.initialise_materials; Call.initialise_mesh]
  ++ match p with
     | fresh_start => fresh_calls
     | resume_failed =>
         [Call.initialise_particle_types; Call.checkpoint_resume] ++ fresh_calls
     | resumed _ =>
         [Call.initialise_particle_types; Call.checkpoint_resume]
         ++ restore_calls b
     end
  ++ [Call.initialise_loads].

Definition setup_world (requested : bool) (w : World) : World :=
  initialise_loads
    (if requested then
       match read_checkpoint (initialise_particle_types (entry_world w)) with
       | Some (_, restored) => restore_world restored
       | None => fresh_world (initialise_particle_types (entry_world w))
       end
     else fresh_world (entry_world w)).

(** The step index the main loop starts at. *)
Definition loop_entry_step (requested : bool) (s : Solver) : N :=
  match setup_path requested (world s) with
  | resumed persisted => persisted
  | _ => step_ s
  end.

(** The solver when the main loop is entered. *)
Definition after_setup (b : Build) (cfg : Config) (requested : bool)
    (s : Solver) : Solver :=
  {| step_ := loop_entry_step requested s;
     pressure_smoothing_ := io_analysis_bool cfg "pressure_smoothing";
     interface_ := io_analysis_bool cfg "interface";
     world := setup_world requested (world s);
     outputs := outputs s;
     calls := calls s ++ setup_calls b (setup_path requested (world s)) |}.

(** The collaborators' state after the steps [steps], one after the
    other, with [correction] in the slot of every step. *)
Definition steps_world (correction : World -> World) (b : Build) (cfg : Config)
    (smoothing : bool) (steps : list N) (w : World) : World :=
  fold_left (fun w step => step_world_with correction b cfg smoothing step w)
    steps w.

(** *** Projections of the log *)

(** The [initial] flags of the domain decompositions, in order. *)
Definition decompositions (log : list Call.t) : list bool :=
  flat_map (fun c => match c with
                     | Call.mpi_domain_decompose initial => [initial]
                     | _ => []
                     end) log.

(** The step indices handed to [compute_forces], in order. *)
Definition executed_steps (log : list Call.t) : list N :=
  flat_map (fun c => match c with
                     | Call.compute_forces _ _ step _ => [step]
                     | _ => []
                     end) log.

Definition is_writer (c : Call.t) : bool :=
  match c with
  | Call.write_hdf5 _ _ | Call.write_vtk _ _ | Call.write_partio _ _ => true
  | _ => false
  end.

Definition is_particle_kinematics (c : Call.t) : bool :=
  match c with
  | Call.compute_particle_kinematics _ _ _ _ => true
  | _ => false
  end.

(** Calls made only to restore a resumed run. *)
Definition is_restoration (c : Call.t) : bool :=
  match c with
  | Call.resume_domain_cell_ranks
  | Call.particle_entity_sets _
  | Call.particle_velocity_constraints => true
  | _ => false
  end.

(** Calls made only to start a run from scratch. *)
Definition is_fresh_initialisation (c : Call.t) : bool :=
  match c with
  | Call.initialise_particles
  | Call.iterate_over_particles Call.compute_mass
  | Call.mpi_domain_decompose true => true
  | _ => false
  end.

(** Every [compute_forces] in the log has [next] as its immediate
    successor. *)
Definition forces_followed_by (next : Call.t) (log : list Call.t) : Prop :=
  forall before after gravity phase step concentrated,
    log = before ++ Call.compute_forces gravity phase step concentrated :: after ->
    exists rest, after = next :: rest.

(** *** The order of a step in the words of the specification

    inject, initialise, nodal kinematics, predictor, forces, corrector,
    particle kinematics, stress and strain, locate, then periodically the
    load balancer, then periodically the writers.  The halo transfer and
    its barrier are not in that sentence, so the comparison leaves them
    out of the log. *)
Definition specified_step_calls (b : Build) (cfg : Config) (smoothing : bool)
    (step : N) : list Call.t :=
  scheme_calls cfg smoothing step
  ++ (if load_balance_due cfg step then [Call.mpi_domain_decompose false] else [])
  ++ output_calls b cfg step.

Definition named_in_specified_order (c : Call.t) : bool :=
  match c with
  | Call.transfer_halo_particles | Call.MPI_Barrier => false
  | _ => true
  end.

(** Configurations and builds that differ in the output schedule only. *)
Definition with_writers (vtk partio : bool) (b : Build) : Build :=
  {| USE_MPI := USE_MPI b;
     USE_GRAPH_PARTITIONING := USE_GRAPH_PARTITIONING b;
     USE_VTK := vtk;
     USE_PARTIO := partio |}.

Definition with_analysis (analysis : Json.json) (cfg : Config) : Config :=
  {| analysis_ := analysis;
     io_analysis_bool := io_analysis_bool cfg;
     nsteps_ := nsteps_ cfg;
     output_steps_ := output_steps_ cfg;
     nload_balance_steps_ := nload_balance_steps_ cfg;
     dt_ := dt_ cfg;
     newmark_beta_ := newmark_beta_ cfg;
     newmark_gamma_ := newmark_gamma_ cfg;
     gravity_ := gravity_ cfg;
     set_node_concentrated_force_ := set_node_concentrated_force_ cfg;
     velocity_update_ := velocity_update_ cfg;
     damping_factor_ := damping_factor_ cfg;
     locate_particles_ := locate_particles_ cfg;
     damping_type_ := damping_type_ cfg |}.

Definition with_output_steps (k : N) (cfg : Config) : Config :=
  {| analysis_ := analysis_ cfg;
     io_analysis_bool := io_analysis_bool cfg;
     nsteps_ := nsteps_ cfg;
     output_steps_ := k;
     nload_balance_steps_ := nload_balance_steps_ cfg;
     dt_ := dt_ cfg;
     newmark_beta_ := newmark_beta_ cfg;
     newmark_gamma_ := newmark_gamma_ cfg;
     gravity_ := gravity_ cfg;
     set_node_concentrated_force_ := set_node_concentrated_force_ cfg;
     velocity_update_ := velocity_update_ cfg;
     damping_factor_ := damping_factor_ cfg;
     locate_particles_ := locate_particles_ cfg;
     damping_type_ := damping_type_ cfg |}.

End Solver.

(** ** A small concrete instance

    Integers stand in for the floating-point values and the particles.
    The background is a pair: a stored checkpoint (the step index it
    holds, if there is one) and a number that every collaborator call
    rewrites as [2 * n + k] with its own [k], so that the final number
    depends on which calls were made and in which order. *)

Module Toy.

#[export] Instance domain : Domain := {|
  real := Z;
  vector := Z;
  VelocityUpdate := bool;
  ConcentratedForce := bool;
  LocatePolicy := bool;
  Particle := Z;
  Background := option N * N;
  File := N * N * N * N;
  mul_step_dt := fun step dt => (Z.of_N step * dt)%Z
|}.

Definition mark (k : N) (w : World) : World :=
  {| particles := particles w;
     background := (fst (background w), 2 * snd (background w) + k) |}.

#[export] Instance particle_base : ParticleBase := {|
  compute_mass := fun _ p => (p + 1)%Z;
  compute_strain := fun dt _ p => (p + dt)%Z;
  update_volume := fun _ p => (2 * p)%Z;
  compute_stress := fun g p => (p + Z.of_N (snd g))%Z
|}.

#[export] Instance mesh : Mesh := {|
  resume_domain_cell_ranks := mark 1;
  inject_particles := fun time w =>
    {| particles := time :: particles w; background := background w |};
  transfer_halo_particles := mark 0
|}.

#[export] Instance scheme : MPMScheme := {|
  initialise := mark 1;
  compute_nodal_kinematics := fun _ => mark 0;
  update_nodal_kinematics_newmark := fun _ _ _ => mark 1;
  compute_forces := fun _ _ step _ => mark step;
  compute_particle_kinematics := fun _ _ _ _ => mark 0;
  postcompute_stress_strain := fun _ _ => mark 1;
  locate_particles := fun _ => mark 0
|}.

#[export] Instance base : MPMBase := {|
  initialise_materials := mark 1;
  initialise_mesh := mark 0;
  initialise_particle_types := mark 1;
  read_checkpoint := fun w =>
    match fst (background w) with
    | Some persisted => Some (persisted, {| particles := [5%Z]; background := (None, 0) |})
    | None => None
    end;
  particle_entity_sets := fun _ => mark 0;
  particle_velocity_constraints := mark 1;
  initialise_particles := fun w =>
    {| particles := [1%Z; 2%Z]; background := background w |};
  mpi_domain_decompose := fun initial => mark (if initial then 1 else 0);
  initialise_loads := mark 1;
  pressure_smoothing := fun _ w =>
    {| particles := map (fun _ => 0%Z) (particles w); background := background w |};
  render_hdf5 := fun w step nsteps => (0, step, nsteps, snd (background w));
  render_vtk := fun w step nsteps => (1, step, nsteps, snd (background w));
  render_partio := fun w step nsteps => (2, step, nsteps, snd (background w))
|}.

Definition serial : Build :=
  {| USE_MPI := false; USE_GRAPH_PARTITIONING := false;
     USE_VTK := false; USE_PARTIO := false |}.

Definition distributed : Build :=
  {| USE_MPI := true; USE_GRAPH_PARTITIONING := true;
     USE_VTK := true; USE_PARTIO := false |}.

Definition configuration (analysis : Json.json) : Config :=
  {| analysis_ := analysis;
     io_analysis_bool := fun key => String.eqb key "pressure_smoothing";
     nsteps_ := 3;
     output_steps_ := 2;
     nload_balance_steps_ := 1;
     dt_ := 10%Z;
     newmark_beta_ := 25%Z;
     newmark_gamma_ := 50%Z;
     gravity_ := (-981)%Z;
     set_node_concentrated_force_ := false;
     velocity_update_ := true;
     damping_factor_ := 2%Z;
     locate_particles_ := true;
     damping_type_ := "None" |}.

(** No ["resume"] entry. *)
Definition plain : Config :=
  configuration
    (Json.object [("type", Json.text "MPMImplicitLinear2D");
                  ("nsteps", Json.number 3)]).

(** [resume.resume = true]. *)
Definition resuming : Config :=
  configuration
    (Json.object [("type", Json.text "MPMImplicitLinear2D");
                  ("resume", Json.object [("resume", Json.boolean true);
                                          ("step", Json.number 1)])]).

Definition solver (stored : option N) : Solver :=
  {| step_ := 0;
     pressure_smoothing_ := false;
     interface_ := false;
     world := {| particles := []; background := (stored, 0) |};
     outputs := [];
     calls := [] |}.

(** The solver a finished run leaves behind (the start state if the run
    faults). *)
Definition final (b : Build) (cfg : Config) (s : Solver) : Solver :=
  match run (solve b cfg) s with
  | inr (_, s') => s'
  | inl _ => s
  end.

End Toy.

(** ** Edge conditions of a run *)

Section SolverEdges.

Context {D : Domain} {particle_ops : ParticleBase} {mesh_ops : Mesh}
  {scheme_ops : MPMScheme} {base_ops : MPMBase}.

(** One of the two remainders of the loop body has a zero divisor: the
    output interval, or, where the load-balance test is compiled in, the
    load-balance interval. *)
Definition zero_modulus (b : Build) (cfg : Config) : Prop :=
  output_steps_ cfg = 0 \/
  (graph_partitioning b = true /\ nload_balance_steps_ cfg = 0).

(** The configuration with another answer to
    [io_->analysis_bool("interface")]. *)
Definition with_interface (v : bool) (cfg : Config) : Config :=
  {| analysis_ := analysis_ cfg;
     io_analysis_bool :=
       fun key => if String.eqb key "interface" then v
                  else io_analysis_bool cfg key;
     nsteps_ := nsteps_ cfg;
     output_steps_ := output_steps_ cfg;
     nload_balance_steps_ := nload_balance_steps_ cfg;
     dt_ := dt_ cfg;
     newmark_beta_ := newmark_beta_ cfg;
     newmark_gamma_ := newmark_gamma_ cfg;
     gravity_ := gravity_ cfg;
     set_node_concentrated_force_ := set_node_concentrated_force_ cfg;
     velocity_update_ := velocity_update_ cfg;
     damping_factor_ := damping_factor_ cfg;
     locate_particles_ := locate_particles_ cfg;
     damping_type_ := damping_type_ cfg |}.

Definition set_interface (v : bool) (s : Solver) : Solver :=
  {| step_ := step_ s;
     pressure_smoothing_ := pressure_smoothing_ s;
     interface_ := v;
     world := world s;
     outputs := outputs s;
     calls := calls s |}.

Definition is_hdf5 (c : Call.t) : bool :=
  match c with
  | Call.write_hdf5 _ _ => true
  | _ => false
  end.

(** The member functions swept over the particles, in order. *)
Definition sweeps (log : list Call.t) : list Call.particle_fn :=
  flat_map (fun c => match c with
                     | Call.iterate_over_particles f => [f]
                     | _ => []
                     end) log.

Definition is_pressure_smoothing (c : Call.t) : bool :=
  match c with
  | Call.pressure_smoothing _ => true
  | _ => false
  end.

(** The [type_error] the resume test ends in when the ["resume"] entry has
    no boolean ["resume"] member: 305 from [operator[]] when the entry is
    neither null nor an object, 302 from [get<bool>] otherwise. *)
Definition resume_type_error (entry : Json.json) : Json.exception :=
  match entry with
  | Json.null | Json.object _ => Json.type_error 302
  | _ => Json.type_error 305
  end.

End SolverEdges.

Module ToyEdges.
Import Toy.

(** A ["resume"] entry without the boolean. *)
Definition incomplete : Config :=
  configuration
    (Json.object [("resume", Json.object [("step", Json.number 1)])]).

(** A ["resume"] entry that is a bare boolean. *)
Definition bare : Config :=
  configuration (Json.object [("resume", Json.boolean true)]).

(** [resume.resume = false]. *)
Definition declined : Config :=
  configuration
    (Json.object [("resume", Json.object [("resume", Json.boolean false)])]).

Definition no_output_interval : Config := with_output_steps 0 plain.

(** A solver whose step counter is already at the step count. *)
Definition finished : Solver :=
  {| step_ := 3;
     pressure_smoothing_ := false;
     interface_ := false;
     world := {| particles := [4%Z]; background := (None, 9) |};
     outputs := [];
     calls := [] |}.

Definition seven_steps : Config :=
  {| analysis_ := analysis_ plain;
     io_analysis_bool := io_analysis_bool plain;
     nsteps_ := 7;
     output_steps_ := 3;
     nload_balance_steps_ := 2;
     dt_ := dt_ plain;
     newmark_beta_ := newmark_beta_ plain;
     newmark_gamma_ := newmark_gamma_ plain;
     gravity_ := gravity_ plain;
     set_node_concentrated_force_ := set_node_concentrated_force_ plain;
     velocity_update_ := velocity_update_ plain;
     damping_factor_ := damping_factor_ plain;
     locate_particles_ := locate_particles_ plain;
     damping_type_ := damping_type_ plain |}.

End ToyEdges.

Section SolverFacts.

Context {D : Domain} {particle_ops : ParticleBase} {mesh_ops : Mesh}
  {scheme_ops : MPMScheme} {base_ops : MPMBase}.

Lemma run_call (c : Call.t) (f : World -> World) (s : Solver) :
  run (call c f) s =
  inr (tt, {| step_ := step_ s;
              pressure_smoothing_ := pressure_smoothing_ s;
              interface_ := interface_ s;
              world := f (world s);
              outputs := outputs s;
              calls := calls s ++ [c] |}).
Proof. reflexivity. Qed.

Lemma run_bind {A B} (c : M A) (k : A -> M B) (s : Solver) :
  run (x <- c ;; k x) s =
  match run c s with
  | inl e => inl e
  | inr (a, s') => run (k a) s'
  end.
Proof. unfold run. simpl. destruct (runStateT c s) as [e | [a s']]; reflexivity. Qed.

Ltac normalise_logs :=
  unfold scheme_world, scheme_calls; simpl;
  rewrite ?app_nil_r; repeat rewrite <- app_assoc; simpl;
  rewrite ?app_nil_r; reflexivity.

Lemma loop_body_run (b : Build) (cfg : Config) (s : Solver) :
  moduli_nonzero b cfg ->
  run (loop_body b cfg 0) s = inr (tt, after_body b cfg s).
Proof.
  intros [Hout Hlb].
  unfold loop_body, after_body, step_world, step_world_with, step_calls,
    step_outputs, load_balance_calls, halo_calls, output_calls,
    load_balance_due, output_due, remainder, run.
  apply N.eqb_neq in Hout.
  destruct (graph_partitioning b) eqn:G.
  - specialize (Hlb eq_refl). apply N.eqb_neq in Hlb.
    simpl. rewrite Hlb. simpl.
    destruct (step_ s mod nload_balance_steps_ cfg =? 0);
      destruct (step_ s =? 0); simpl; rewrite Hout; simpl;
      destruct (step_ s mod output_steps_ cfg =? 0); simpl;
      destruct (USE_VTK b), (USE_PARTIO b); normalise_logs.
  - simpl. rewrite Hout; simpl;
      destruct (step_ s mod output_steps_ cfg =? 0); simpl;
      destruct (USE_VTK b), (USE_PARTIO b); normalise_logs.
Qed.

Lemma main_loop_unfold (b : Build) (cfg : Config) (fuel : nat) (s : Solver) :
  run (main_loop b cfg 0 fuel) s =
  if step_ s <? nsteps_ cfg then
    match fuel with
    | O => inl fuel_exhausted
    | S fuel' =>
        match run (loop_body b cfg 0) s with
        | inl e => inl e
        | inr (_, s') =>
            run (main_loop b cfg 0 fuel')
              {| step_ := N.succ (step_ s');
                 pressure_smoothing_ := pressure_smoothing_ s';
                 interface_ := interface_ s';
                 world := world s';
                 outputs := outputs s';
                 calls := calls s' |}
        end
    end
  else inr (tt, s).
Proof.
  unfold run. destruct fuel as [| fuel']; simpl.
  - destruct (step_ s <? nsteps_ cfg); reflexivity.
  - destruct (step_ s <? nsteps_ cfg); [| reflexivity].
    destruct (runStateT (loop_body b cfg 0) s) as [e | [u s']]; reflexivity.
Qed.

Lemma main_loop_run (b : Build) (cfg : Config) :
  moduli_nonzero b cfg ->
  forall (fuel : nat) (s : Solver),
    (N.to_nat (nsteps_ cfg - step_ s) <= fuel)%nat ->
    run (main_loop b cfg 0 fuel) s =
    inr (tt, after_steps b cfg (N.to_nat (nsteps_ cfg - step_ s)) s).
Proof.
  intros Hnz fuel. induction fuel as [| fuel IH]; intros s Hfuel;
    rewrite main_loop_unfold.
  - destruct (N.ltb_spec (step_ s) (nsteps_ cfg)) as [Hlt | Hge]; [lia |].
    replace (N.to_nat (nsteps_ cfg - step_ s)) with O by lia. reflexivity.
  - destruct (N.ltb_spec (step_ s) (nsteps_ cfg)) as [Hlt | Hge].
    + rewrite (loop_body_run b cfg s Hnz).
      change {| step_ := N.succ (step_ (after_body b cfg s));
                pressure_smoothing_ := pressure_smoothing_ (after_body b cfg s);
                interface_ := interface_ (after_body b cfg s);
                world := world (after_body b cfg s);
                outputs := outputs (after_body b cfg s);
                calls := calls (after_body b cfg s) |}
        with (after_step b cfg s).
      assert (Hstep : step_ (after_step b cfg s) = N.succ (step_ s)) by reflexivity.
      rewrite IH by (rewrite Hstep; lia).
      rewrite Hstep.
      replace (N.to_nat (nsteps_ cfg - step_ s))
        with (S (N.to_nat (nsteps_ cfg - N.succ (step_ s)))) by lia.
      reflexivity.
    + replace (N.to_nat (nsteps_ cfg - step_ s)) with O by lia. reflexivity.
Qed.

(** The members the loop leaves alone, and the ones it extends. *)
Lemma after_steps_step (b : Build) (cfg : Config) (k : nat) (s : Solver) :
  step_ (after_steps b cfg k s) = step_ s + N.of_nat k.
Proof.
  revert s. induction k as [| k IH]; intros s; simpl.
  - lia.
  - rewrite IH. simpl. lia.
Qed.

Lemma after_steps_smoothing (b : Build) (cfg : Config) (k : nat) (s : Solver) :
  pressure_smoothing_ (after_steps b cfg k s) = pressure_smoothing_ s.
Proof.
  revert s. induction k as [| k IH]; intros s; simpl; [| rewrite IH]; reflexivity.
Qed.

Lemma after_steps_calls (b : Build) (cfg : Config) (k : nat) (s : Solver) :
  calls (after_steps b cfg k s) =
  calls s ++ flat_map (step_calls b cfg (pressure_smoothing_ s))
                      (steps_from (step_ s) k).
Proof.
  revert s. induction k as [| k IH]; intros s; simpl.
  - now rewrite app_nil_r.
  - rewrite IH. simpl. now rewrite <- app_assoc.
Qed.

Lemma after_steps_world (b : Build) (cfg : Config) (k : nat) (s : Solver) :
  world (after_steps b cfg k s) =
  steps_world (fun w => w) b cfg (pressure_smoothing_ s)
    (steps_from (step_ s) k) (world s).
Proof.
  revert s. induction k as [| k IH]; intros s; simpl.
  - reflexivity.
  - rewrite IH. reflexivity.
Qed.

Lemma steps_from_In (from : N) (k : nat) (i : N) :
  In i (steps_from from k) <-> from <= i < from + N.of_nat k.
Proof.
  revert from. induction k as [| k IH]; intros from; simpl.
  - lia.
  - rewrite IH. lia.
Qed.

Lemma remaining_steps_In (cfg : Config) (from i : N) :
  In i (remaining_steps cfg from) <-> from <= i < nsteps_ cfg.
Proof. unfold remaining_steps. rewrite steps_from_In. lia. Qed.

Lemma steps_from_nth (from : N) (k n : nat) :
  (n < k)%nat -> nth_error (steps_from from k) n = Some (from + N.of_nat n).
Proof.
  revert from n. induction k as [| k IH]; intros from n Hn; [lia |].
  destruct n as [| n]; simpl.
  - f_equal. lia.
  - rewrite IH by lia. f_equal. lia.
Qed.

Lemma steps_from_length (from : N) (k : nat) : List.length (steps_from from k) = k.
Proof. revert from. induction k as [| k IH]; intros from; simpl; auto. Qed.

(** The resume test. *)
Lemma resume_option_absent (cfg : Config) (s : Solver) :
  Json.find "resume" (analysis_ cfg) = None ->
  run (resume_option cfg) s = inr (false, s).
Proof. intros Hfind. unfold resume_option, run. now rewrite Hfind. Qed.

Lemma find_at_key (key : string) (j v : Json.json) :
  Json.find key j = Some v -> Json.at_key key j = inr v.
Proof.
  destruct j; simpl; try discriminate. intros Hfind. now rewrite Hfind.
Qed.

Lemma resume_option_present (cfg : Config) (s : Solver) (entry : Json.json)
    (flag : bool) :
  Json.find "resume" (analysis_ cfg) = Some entry ->
  Json.find "resume" entry = Some (Json.boolean flag) ->
  run (resume_option cfg) s = inr (flag, s).
Proof.
  intros Houter Hinner. unfold resume_option, run. rewrite Houter.
  rewrite (find_at_key _ _ _ Houter). simpl.
  rewrite (find_at_key _ _ _ Hinner). reflexivity.
Qed.

Lemma resume_option_requested (cfg : Config) (s : Solver) :
  resume_requested cfg -> run (resume_option cfg) s = inr (true, s).
Proof. intros [entry [Ho Hi]]. exact (resume_option_present cfg s entry true Ho Hi). Qed.

Lemma resume_option_declined (cfg : Config) (s : Solver) :
  resume_declined cfg -> run (resume_option cfg) s = inr (false, s).
Proof.
  intros [Habsent | [entry [Ho Hi]]].
  - now apply resume_option_absent.
  - exact (resume_option_present cfg s entry false Ho Hi).
Qed.

(** The whole of [solve], once the resume test has gone through. *)
Lemma solve_run (b : Build) (cfg : Config) (requested : bool) (s : Solver) :
  moduli_nonzero b cfg ->
  run (resume_option cfg) s = inr (requested, s) ->
  run (solve b cfg) s =
  inr (true,
       after_steps b cfg
         (N.to_nat (nsteps_ cfg - step_ (after_setup b cfg requested s)))
         (after_setup b cfg requested s)).
Proof.
  intros Hnz Hres. unfold solve. rewrite run_bind, Hres.
  pose proof (main_loop_run b cfg Hnz) as Hloop.
  unfold run in *.
  unfold after_setup, loop_entry_step, setup_path, setup_world, setup_calls,
    entry_world, fresh_world, fresh_calls, restore_world, restore_calls.
  destruct requested; simpl.
  - unfold checkpoint_resume. simpl.
    destruct (read_checkpoint _) as [[persisted restored] |]; simpl.
    + destruct (graph_partitioning b); simpl;
        repeat rewrite <- app_assoc; simpl;
        rewrite Hloop by (simpl; lia); reflexivity.
    + repeat rewrite <- app_assoc; simpl.
      rewrite Hloop by (simpl; lia). reflexivity.
  - repeat rewrite <- app_assoc; simpl.
    rewrite Hloop by (simpl; lia). reflexivity.
Qed.

(** What a finished run leaves behind, in closed form. *)
Lemma solve_outcome (b : Build) (cfg : Config) (requested : bool) (s : Solver) :
  moduli_nonzero b cfg ->
  run (resume_option cfg) s = inr (requested, s) ->
  exists s',
    run (solve b cfg) s = inr (true, s') /\
    calls s' =
      calls s ++ setup_calls b (setup_path requested (world s))
      ++ flat_map (step_calls b cfg (io_analysis_bool cfg "pressure_smoothing"))
           (remaining_steps cfg (loop_entry_step requested s)) /\
    world s' =
      steps_world (fun w => w) b cfg (io_analysis_bool cfg "pressure_smoothing")
        (remaining_steps cfg (loop_entry_step requested s))
        (setup_world requested (world s)) /\
    pressure_smoothing_ s' = io_analysis_bool cfg "pressure_smoothing" /\
    step_ s' = N.max (loop_entry_step requested s) (nsteps_ cfg).
Proof.
  intros Hnz Hres. eexists. split; [exact (solve_run b cfg requested s Hnz Hres) |].
  rewrite after_steps_calls, after_steps_world, after_steps_smoothing,
    after_steps_step.
  unfold remaining_steps. simpl. rewrite <- app_assoc.
  repeat split; lia.
Qed.

(** Projections of the log of a step. *)
Lemma step_calls_decompositions (b : Build) (cfg : Config) (smoothing : bool)
    (step : N) :
  decompositions (step_calls b cfg smoothing step) =
  if graph_partitioning b && load_balance_due cfg step then [false] else [].
Proof.
  unfold step_calls, load_balance_calls, halo_calls, output_calls.
  destruct (graph_partitioning b), (load_balance_due cfg step),
    (output_due cfg step), (USE_VTK b), (USE_PARTIO b); reflexivity.
Qed.

Lemma step_calls_writers (b : Build) (cfg : Config) (smoothing : bool) (step : N) :
  filter is_writer (step_calls b cfg smoothing step) = output_calls b cfg step.
Proof.
  unfold step_calls, load_balance_calls, halo_calls, output_calls.
  destruct (graph_partitioning b), (load_balance_due cfg step),
    (output_due cfg step), (USE_VTK b), (USE_PARTIO b); reflexivity.
Qed.

Lemma step_calls_particle_kinematics (b : Build) (cfg : Config)
    (smoothing : bool) (step : N) :
  filter is_particle_kinematics (step_calls b cfg smoothing step) =
  [Call.compute_particle_kinematics (velocity_update_ cfg) 0 "Cundall"
     (damping_factor_ cfg)].
Proof.
  unfold step_calls, load_balance_calls, halo_calls, output_calls.
  destruct (graph_partitioning b), (load_balance_due cfg step),
    (output_due cfg step), (USE_VTK b), (USE_PARTIO b); reflexivity.
Qed.

Lemma step_calls_executed (b : Build) (cfg : Config) (smoothing : bool) (step : N) :
  executed_steps (step_calls b cfg smoothing step) = [step].
Proof.
  unfold step_calls, load_balance_calls, halo_calls, output_calls.
  destruct (graph_partitioning b), (load_balance_due cfg step),
    (output_due cfg step), (USE_VTK b), (USE_PARTIO b); reflexivity.
Qed.

Lemma step_calls_no_restoration (b : Build) (cfg : Config) (smoothing : bool)
    (step : N) :
  filter is_restoration (step_calls b cfg smoothing step) = [].
Proof.
  unfold step_calls, load_balance_calls, halo_calls, output_calls.
  destruct (graph_partitioning b), (load_balance_due cfg step),
    (output_due cfg step), (USE_VTK b), (USE_PARTIO b); reflexivity.
Qed.

Lemma step_calls_no_fresh_initialisation (b : Build) (cfg : Config)
    (smoothing : bool) (step : N) :
  filter is_fresh_initialisation (step_calls b cfg smoothing step) = [].
Proof.
  unfold step_calls, load_balance_calls, halo_calls, output_calls.
  destruct (graph_partitioning b), (load_balance_due cfg step),
    (output_due cfg step), (USE_VTK b), (USE_PARTIO b); reflexivity.
Qed.

Lemma filter_flat_map_nil {A B} (p : B -> bool) (f : A -> list B) (l : list A) :
  (forall a, filter p (f a) = []) -> filter p (flat_map f l) = [].
Proof.
  intros Hf. induction l as [| a l IH]; simpl; [reflexivity |].
  now rewrite filter_app, Hf, IH.
Qed.

Lemma executed_steps_app (l1 l2 : list Call.t) :
  executed_steps (l1 ++ l2) = executed_steps l1 ++ executed_steps l2.
Proof. unfold executed_steps. apply flat_map_app. Qed.

Lemma executed_steps_flat_map (b : Build) (cfg : Config) (smoothing : bool)
    (steps : list N) :
  executed_steps (flat_map (step_calls b cfg smoothing) steps) = steps.
Proof.
  induction steps as [| i steps IH]; simpl; [reflexivity |].
  now rewrite executed_steps_app, step_calls_executed, IH.
Qed.

Lemma setup_calls_executed (b : Build) (p : Path) :
  executed_steps (setup_calls b p) = [].
Proof. destruct p; simpl; try reflexivity. destruct (graph_partitioning b); reflexivity. Qed.

Lemma steps_from_seq (from : N) (k : nat) :
  steps_from from k = map (fun n => from + N.of_nat n) (seq 0 k).
Proof.
  revert from. induction k as [| k IH]; intros from; simpl; [reflexivity |].
  rewrite IH, <- seq_shift, map_map. f_equal; [lia |].
  apply map_ext. intros n. lia.
Qed.

(** [forces_followed_by] on the pieces of the log. *)
Lemma forces_followed_by_none (next : Call.t) (log : list Call.t) :
  executed_steps log = [] -> forces_followed_by next log.
Proof.
  intros Hnone before after g ph st cf Heq. subst log.
  rewrite executed_steps_app in Hnone. simpl in Hnone.
  destruct (executed_steps before); discriminate Hnone.
Qed.

Lemma forces_followed_by_app (next : Call.t) (l1 l2 : list Call.t) :
  forces_followed_by next l1 ->
  forces_followed_by next l2 ->
  forces_followed_by next (l1 ++ l2).
Proof.
  intros H1 H2 before after g ph st cf Heq.
  apply app_eq_app in Heq.
  destruct Heq as [l [[Hl1 Hl2] | [Hbefore Hl2]]].
  - destruct l as [| c l].
    + simpl in Hl2. symmetry in Hl2.
      exact (H2 [] after g ph st cf Hl2).
    + simpl in Hl2. injection Hl2 as Hc Hafter. subst c after.
      destruct (H1 before l g ph st cf Hl1) as [rest Hrest].
      exists (rest ++ l2). now rewrite Hrest.
  - exact (H2 l after g ph st cf Hl2).
Qed.

Lemma scheme_calls_forces_followed (cfg : Config) (smoothing : bool) (step : N) :
  forces_followed_by
    (Call.update_nodal_kinematics_newmark 0 (newmark_beta_ cfg) (newmark_gamma_ cfg))
    (scheme_calls cfg smoothing step).
Proof.
  intros before after g ph st cf Heq. unfold scheme_calls in Heq.
  do 4 (destruct before as [| ? before]; [discriminate Heq |];
        injection Heq as _ Heq).
  destruct before as [| ? before].
  - injection Heq as _ Hafter. subst after. eauto.
  - injection Heq as _ Heq.
    do 4 (destruct before as [| ? before]; [discriminate Heq |];
          injection Heq as _ Heq).
    destruct before; discriminate Heq.
Qed.

Lemma step_calls_forces_followed (b : Build) (cfg : Config) (smoothing : bool)
    (step : N) :
  forces_followed_by
    (Call.update_nodal_kinematics_newmark 0 (newmark_beta_ cfg) (newmark_gamma_ cfg))
    (step_calls b cfg smoothing step).
Proof.
  unfold step_calls.
  apply forces_followed_by_app; [| apply forces_followed_by_app;
                                     [| apply forces_followed_by_app]].
  - apply forces_followed_by_none. unfold load_balance_calls.
    destruct (graph_partitioning b && load_balance_due cfg step); reflexivity.
  - apply scheme_calls_forces_followed.
  - apply forces_followed_by_none. unfold halo_calls.
    destruct (graph_partitioning b); reflexivity.
  - apply forces_followed_by_none. unfold output_calls.
    destruct (output_due cfg step), (USE_VTK b), (USE_PARTIO b); reflexivity.
Qed.

Lemma flat_map_forces_followed (b : Build) (cfg : Config) (smoothing : bool)
    (steps : list N) :
  forces_followed_by
    (Call.update_nodal_kinematics_newmark 0 (newmark_beta_ cfg) (newmark_gamma_ cfg))
    (flat_map (step_calls b cfg smoothing) steps).
Proof.
  induction steps as [| i steps IH]; simpl.
  - now apply forces_followed_by_none.
  - apply forces_followed_by_app; [apply step_calls_forces_followed | exact IH].
Qed.

(** ** The properties of the run *)

(** C1, as amended.  In every step the main loop of [solve] executes, the
    calls are made in one fixed order: first the load balancer
    [mpi_domain_decompose(false)], when the build has graph partitioning
    and the step is due; then [inject_particles], the scheme's
    [initialise], [compute_nodal_kinematics], the Newmark predictor,
    [compute_forces], the Newmark corrector, [compute_particle_kinematics],
    [postcompute_stress_strain], [locate_particles]; then, on builds with
    graph partitioning, the halo transfer and its barrier; then the output
    writers, when the step is due.  The corrector call of a step comes two
    calls after the predictor call of that step. *)
Theorem step_order (b : Build) (cfg : Config) (requested : bool) (s : Solver) :
  moduli_nonzero b cfg ->
  run (resume_option cfg) s = inr (requested, s) ->
  exists s',
    run (solve b cfg) s = inr (true, s') /\
    calls s' =
      calls (after_setup b cfg requested s)
      ++ flat_map
           (fun step =>
              load_balance_calls b cfg step
              ++ [ Call.inject_particles (mul_step_dt step (dt_ cfg));
                   Call.scheme_initialise;
                   Call.compute_nodal_kinematics 0;
                   Call.update_nodal_kinematics_newmark 0 (newmark_beta_ cfg)
                     (newmark_gamma_ cfg);
                   Call.compute_forces (gravity_ cfg) 0 step
                     (set_node_concentrated_force_ cfg);
                   Call.update_nodal_kinematics_newmark 0 (newmark_beta_ cfg)
                     (newmark_gamma_ cfg);
                   Call.compute_particle_kinematics (velocity_update_ cfg) 0
                     "Cundall" (damping_factor_ cfg);
                   Call.postcompute_stress_strain 0
                     (io_analysis_bool cfg "pressure_smoothing");
                   Call.locate_particles (locate_particles_ cfg) ]
              ++ halo_calls b
              ++ output_calls b cfg step)
           (remaining_steps cfg (loop_entry_step requested s)).
Proof.
  intros Hnz Hres.
  destruct (solve_outcome b cfg requested s Hnz Hres) as [s' [Hrun [Hcalls _]]].
  exists s'. split; [exact Hrun |].
  rewrite Hcalls. unfold after_setup. cbn [calls].
  rewrite <- app_assoc. reflexivity.
Qed.

Ltac run_through H :=
  rewrite run_bind in H;
  match type of H with
  | match ?r with _ => _ end = _ =>
      destruct r as [? | [? ?]]; [discriminate H |]
  end.

(** C9.  Whenever [solve] returns, it returns [true]: [status] is set to
    [true] on entry and nothing assigns it afterwards, whatever the resume
    attempt, the decomposition or the steps did. *)
Theorem solve_status_true (b : Build) (cfg : Config) (s s' : Solver)
    (status : bool) :
  run (solve b cfg) s = inr (status, s') -> status = true.
Proof.
  intros Hrun. unfold solve in Hrun.
  repeat run_through Hrun.
  unfold run in Hrun. simpl in Hrun. now inversion Hrun.
Qed.

(** C10.  When the analysis configuration has no ["resume"] entry, the
    resume test yields [false] without raising, and [solve] takes the
    fresh-start path: materials, mesh, particle initialisation, the mass
    sweep, the initial domain decomposition, the loads, and then the steps
    from the solver's step counter on. *)
Theorem absent_resume_entry_is_fresh_start (b : Build) (cfg : Config)
    (s : Solver) :
  moduli_nonzero b cfg ->
  Json.find "resume" (analysis_ cfg) = None ->
  run (resume_option cfg) s = inr (false, s) /\
  exists s',
    run (solve b cfg) s = inr (true, s') /\
    calls s' =
      calls s
      ++ [ Call.initialise_materials;
           Call.initialise_mesh;
           Call.initialise_particles;
           Call.iterate_over_particles Call.compute_mass;
           Call.mpi_domain_decompose true;
           Call.initialise_loads ]
      ++ flat_map (step_calls b cfg (io_analysis_bool cfg "pressure_smoothing"))
           (remaining_steps cfg (step_ s)) /\
    world s' =
      steps_world (fun w => w) b cfg (io_analysis_bool cfg "pressure_smoothing")
        (remaining_steps cfg (step_ s))
        (initialise_loads
           (mpi_domain_decompose true
              (sweep compute_mass
                 (initialise_particles
                    (initialise_mesh (initialise_materials (world s))))))).
Proof.
  intros Hnz Habsent.
  pose proof (resume_option_absent cfg s Habsent) as Hres.
  split; [exact Hres |].
  destruct (solve_outcome b cfg false s Hnz Hres) as [s' [Hrun [Hcalls [Hworld _]]]].
  exists s'. repeat split; assumption.
Qed.

(** C2.  When the configuration asks for a resume and the resume attempt
    fails, [solve] goes on as a fresh start: after the attempt it
    initialises the particles, sweeps [compute_mass] and makes the initial
    domain decomposition, the same calls a run without the resume request
    makes after the mesh is set up; none of the restoration calls is made;
    the run returns normally and, the step counter being untouched by the
    failed attempt, executes the steps from 0. *)
Theorem failed_resume_falls_back (b : Build) (cfg : Config) (s : Solver) :
  moduli_nonzero b cfg ->
  resume_requested cfg ->
  step_ s = 0 ->
  read_checkpoint
    (initialise_particle_types
       (initialise_mesh (initialise_materials (world s)))) = None ->
  exists s' added,
    run (solve b cfg) s = inr (true, s') /\
    calls s' = calls s ++ added /\
    added =
      [ Call.initialise_materials;
        Call.initialise_mesh;
        Call.initialise_particle_types;
        Call.checkpoint_resume;
        Call.initialise_particles;
        Call.iterate_over_particles Call.compute_mass;
        Call.mpi_domain_decompose true;
        Call.initialise_loads ]
      ++ flat_map (step_calls b cfg (io_analysis_bool cfg "pressure_smoothing"))
           (remaining_steps cfg 0) /\
    filter is_restoration added = [] /\
    executed_steps added = remaining_steps cfg 0 /\
    world s' =
      steps_world (fun w => w) b cfg (io_analysis_bool cfg "pressure_smoothing")
        (remaining_steps cfg 0)
        (initialise_loads
           (mpi_domain_decompose true
              (sweep compute_mass
                 (initialise_particles
                    (initialise_particle_types
                       (initialise_mesh (initialise_materials (world s)))))))) /\
    forall analysis,
      Json.find "resume" analysis = None ->
      exists s0 tail,
        run (solve b (with_analysis analysis cfg)) s = inr (true, s0) /\
        calls s0 =
          calls s ++ [Call.initialise_materials; Call.initialise_mesh] ++ tail /\
        added =
          [ Call.initialise_materials; Call.initialise_mesh;
            Call.initialise_particle_types; Call.checkpoint_resume ] ++ tail.
Proof.
  intros Hnz Hreq Hzero Hfail.
  pose proof (resume_option_requested cfg s Hreq) as Hres.
  destruct (solve_outcome b cfg true s Hnz Hres) as [s' [Hrun [Hcalls [Hworld _]]]].
  unfold loop_entry_step, setup_path, setup_world, entry_world in *.
  rewrite Hfail in *. rewrite Hzero in *.
  exists s'. eexists. split; [exact Hrun |]. split; [exact Hcalls |].
  split; [reflexivity |]. split; [| split; [| split; [exact Hworld |]]].
  - rewrite filter_app.
    rewrite (filter_flat_map_nil _ _ _ (step_calls_no_restoration b cfg _)).
    reflexivity.
  - rewrite executed_steps_app, executed_steps_flat_map.
    now rewrite (setup_calls_executed b resume_failed).
  - intros analysis Habsent.
    pose proof (resume_option_absent (with_analysis analysis cfg) s Habsent) as Hres0.
    destruct (solve_outcome b (with_analysis analysis cfg) false s Hnz Hres0)
      as [s0 [Hrun0 [Hcalls0 _]]].
    unfold loop_entry_step, setup_path in Hcalls0. rewrite Hzero in Hcalls0.
    exists s0. eexists. split; [exact Hrun0 |]. split; [exact Hcalls0 |].
    reflexivity.
Qed.

(** C4.  When the configuration asks for a resume and the resume attempt
    succeeds with the persisted step index [persisted], [solve] derives the
    domain ownership with [resume_domain_cell_ranks], rebuilds the particle
    entity sets and the velocity constraints, makes none of the fresh-start
    calls (no particle initialisation, no mass sweep, no initial
    decomposition), and the main loop executes exactly the steps
    [persisted], [persisted + 1], ..., [nsteps_ - 1]. *)
Theorem successful_resume_continues (b : Build) (cfg : Config) (s : Solver)
    (persisted : N) (restored : World) :
  moduli_nonzero b cfg ->
  resume_requested cfg ->
  read_checkpoint
    (initialise_particle_types
       (initialise_mesh (initialise_materials (world s)))) =
    Some (persisted, restored) ->
  exists s' added,
    run (solve b cfg) s = inr (true, s') /\
    calls s' = calls s ++ added /\
    added =
      [ Call.initialise_materials;
        Call.initialise_mesh;
        Call.initialise_particle_types;
        Call.checkpoint_resume;
        Call.resume_domain_cell_ranks ]
      ++ (if graph_partitioning b then [Call.MPI_Barrier] else [])
      ++ [ Call.particle_entity_sets false;
           Call.particle_velocity_constraints;
           Call.initialise_loads ]
      ++ flat_map (step_calls b cfg (io_analysis_bool cfg "pressure_smoothing"))
           (remaining_steps cfg persisted) /\
    filter is_fresh_initialisation added = [] /\
    executed_steps added =
      map (fun n => persisted + N.of_nat n)
          (seq 0 (N.to_nat (nsteps_ cfg - persisted))) /\
    (forall step, In step (executed_steps added) <->
                  persisted <= step < nsteps_ cfg) /\
    world s' =
      steps_world (fun w => w) b cfg (io_analysis_bool cfg "pressure_smoothing")
        (remaining_steps cfg persisted)
        (initialise_loads
           (particle_velocity_constraints
              (particle_entity_sets false (resume_domain_cell_ranks restored)))).
Proof.
  intros Hnz Hreq Hload.
  pose proof (resume_option_requested cfg s Hreq) as Hres.
  destruct (solve_outcome b cfg true s Hnz Hres) as [s' [Hrun [Hcalls [Hworld _]]]].
  unfold loop_entry_step, setup_path, setup_world, entry_world in *.
  rewrite Hload in *.
  assert (Hexec :
    executed_steps
      (setup_calls b (resumed persisted)
       ++ flat_map (step_calls b cfg (io_analysis_bool cfg "pressure_smoothing"))
            (remaining_steps cfg persisted)) = remaining_steps cfg persisted).
  { rewrite executed_steps_app, executed_steps_flat_map.
    now rewrite (setup_calls_executed b (resumed persisted)). }
  exists s'. eexists. split; [exact Hrun |]. split; [exact Hcalls |].
  split; [| split; [| split; [| split; [| exact Hworld]]]].
  - unfold setup_calls, restore_calls. cbn [app].
    destruct (graph_partitioning b); reflexivity.
  - rewrite filter_app.
    rewrite (filter_flat_map_nil _ _ _ (step_calls_no_fresh_initialisation b cfg _)).
    unfold setup_calls, restore_calls.
    destruct (graph_partitioning b); reflexivity.
  - rewrite Hexec. apply steps_from_seq.
  - intros step. rewrite Hexec. apply remaining_steps_In.
Qed.

(** C3.  In every step, the call that follows [compute_forces] is the
    second Newmark update: nothing is assembled, solved or applied in
    between.  The collaborators' state a run ends in is therefore the one
    obtained by iterating the scheme's step with nothing in the slot
    between the force computation and the corrector, which then works on
    the predictor's trial state as the force computation left it. *)
Theorem corrector_follows_forces (b : Build) (cfg : Config) (requested : bool)
    (s : Solver) :
  moduli_nonzero b cfg ->
  run (resume_option cfg) s = inr (requested, s) ->
  exists s' added,
    run (solve b cfg) s = inr (true, s') /\
    calls s' = calls s ++ added /\
    executed_steps added = remaining_steps cfg (loop_entry_step requested s) /\
    (forall before after gravity phase step concentrated,
        added =
          before ++ Call.compute_forces gravity phase step concentrated :: after ->
        exists rest,
          after =
            Call.update_nodal_kinematics_newmark 0 (newmark_beta_ cfg)
              (newmark_gamma_ cfg) :: rest) /\
    world s' =
      steps_world (fun w => w) b cfg (io_analysis_bool cfg "pressure_smoothing")
        (remaining_steps cfg (loop_entry_step requested s))
        (setup_world requested (world s)).
Proof.
  intros Hnz Hres.
  destruct (solve_outcome b cfg requested s Hnz Hres)
    as [s' [Hrun [Hcalls [Hworld _]]]].
  exists s'. eexists. split; [exact Hrun |]. split; [exact Hcalls |].
  split; [| split; [| exact Hworld]].
  - rewrite executed_steps_app, executed_steps_flat_map.
    now rewrite setup_calls_executed.
  - apply forces_followed_by_app.
    + apply forces_followed_by_none. apply setup_calls_executed.
    + apply flat_map_forces_followed.
Qed.

(** C5, as amended.  On a build with both [USE_MPI] and
    [USE_GRAPH_PARTITIONING], the main loop re-decomposes exactly in the
    steps with [step mod nload_balance_steps_ = 0] and [step <> 0], each
    time with [initial = false]; on any other build the main loop never
    re-decomposes.  The decomposition with [initial = true] is made once,
    before the main loop, on the paths that do not resume, and not at all
    on the resumed path. *)
Theorem load_balancing_schedule (b : Build) (cfg : Config) (requested : bool)
    (s : Solver) :
  moduli_nonzero b cfg ->
  run (resume_option cfg) s = inr (requested, s) ->
  exists s',
    run (solve b cfg) s = inr (true, s') /\
    calls s' =
      calls s ++ setup_calls b (setup_path requested (world s))
      ++ flat_map (step_calls b cfg (io_analysis_bool cfg "pressure_smoothing"))
           (remaining_steps cfg (loop_entry_step requested s)) /\
    decompositions (setup_calls b (setup_path requested (world s))) =
      match setup_path requested (world s) with
      | resumed _ => []
      | _ => [true]
      end /\
    forall step,
      decompositions
        (step_calls b cfg (io_analysis_bool cfg "pressure_smoothing") step) =
      if USE_MPI b && USE_GRAPH_PARTITIONING b
         && ((step mod nload_balance_steps_ cfg =? 0) && negb (step =? 0))
      then [false] else [].
Proof.
  intros Hnz Hres.
  destruct (solve_outcome b cfg requested s Hnz Hres) as [s' [Hrun [Hcalls _]]].
  exists s'. split; [exact Hrun |]. split; [exact Hcalls |]. split.
  - destruct (setup_path requested (world s)); try reflexivity.
    unfold setup_calls, restore_calls.
    destruct (graph_partitioning b); reflexivity.
  - intros step. apply step_calls_decompositions.
Qed.

(** C6.  [compute_stress_strain(phase)] sweeps [compute_strain] with the
    time increment over all particles, then [update_volume] over all
    particles, then runs [pressure_smoothing(phase)] if and only if the
    pressure-smoothing flag of the configuration is set, then sweeps
    [compute_stress] over all particles.  With the flag off, every
    particle ends as [compute_stress] of [update_volume] of
    [compute_strain] of itself and nothing else changes. *)
Theorem compute_stress_strain_passes (cfg : Config) (phase : N) (s : Solver) :
  pressure_smoothing_ s = io_analysis_bool cfg "pressure_smoothing" ->
  exists s',
    run (compute_stress_strain cfg phase) s = inr (tt, s') /\
    calls s' =
      calls s
      ++ [ Call.iterate_over_particles (Call.compute_strain (dt_ cfg));
           Call.iterate_over_particles Call.update_volume ]
      ++ (if io_analysis_bool cfg "pressure_smoothing"
          then [Call.pressure_smoothing phase] else [])
      ++ [ Call.iterate_over_particles Call.compute_stress ] /\
    world s' =
      sweep compute_stress
        ((if io_analysis_bool cfg "pressure_smoothing"
          then pressure_smoothing phase else fun w => w)
           (sweep update_volume (sweep (compute_strain (dt_ cfg)) (world s)))) /\
    (In (Call.pressure_smoothing phase)
        (skipn (List.length (calls s)) (calls s')) <->
     io_analysis_bool cfg "pressure_smoothing" = true) /\
    (io_analysis_bool cfg "pressure_smoothing" = false ->
     particles (world s') =
       map (fun p =>
              compute_stress (background (world s))
                (update_volume (background (world s))
                   (compute_strain (dt_ cfg) (background (world s)) p)))
           (particles (world s)) /\
     background (world s') = background (world s)) /\
    step_ s' = step_ s /\
    outputs s' = outputs s.
Proof.
  intros Hflag. unfold compute_stress_strain, run. simpl. rewrite Hflag.
  destruct (io_analysis_bool cfg "pressure_smoothing"); simpl;
    eexists; (split; [reflexivity |]); simpl;
    repeat rewrite <- app_assoc; simpl;
    (split; [reflexivity |]); (split; [reflexivity |]);
    rewrite skipn_app, skipn_all, Nat.sub_diag; simpl.
  - split; [| split; [discriminate | split; reflexivity]].
    split; [reflexivity | intros _].
    right; right; left; reflexivity.
  - split; [| split; [| split; reflexivity]].
    + split; [| discriminate].
      intros [Hin | [Hin | [Hin | []]]]; discriminate.
    + intros _. unfold sweep. simpl. rewrite !map_map. split; reflexivity.
Qed.

(** C7.  In every executed step the output writers run if and only if
    [step mod output_steps_ = 0]: [write_hdf5] always, [write_vtk] and
    [write_partio] when compiled in, each with the step index and the
    total step count.  A writer adds a file and changes nothing else, so
    the collaborators' state, the step counter and the flags a run ends in
    are the same for every output interval and every choice of compiled-in
    writers. *)
Theorem output_schedule (b : Build) (cfg : Config) (requested : bool)
    (s : Solver) :
  moduli_nonzero b cfg ->
  run (resume_option cfg) s = inr (requested, s) ->
  exists s',
    run (solve b cfg) s = inr (true, s') /\
    calls s' =
      calls s ++ setup_calls b (setup_path requested (world s))
      ++ flat_map (step_calls b cfg (io_analysis_bool cfg "pressure_smoothing"))
           (remaining_steps cfg (loop_entry_step requested s)) /\
    filter is_writer (setup_calls b (setup_path requested (world s))) = [] /\
    (forall step,
        filter is_writer
          (step_calls b cfg (io_analysis_bool cfg "pressure_smoothing") step) =
        if step mod output_steps_ cfg =? 0
        then Call.write_hdf5 step (nsteps_ cfg)
             :: (if USE_VTK b then [Call.write_vtk step (nsteps_ cfg)] else [])
             ++ (if USE_PARTIO b then [Call.write_partio step (nsteps_ cfg)]
                 else [])
        else []) /\
    (forall c render step nsteps st,
        exists st',
          run (writer c render step nsteps) st = inr (tt, st') /\
          world st' = world st /\
          step_ st' = step_ st /\
          pressure_smoothing_ st' = pressure_smoothing_ st /\
          interface_ st' = interface_ st) /\
    (forall k vtk partio,
        k <> 0 ->
        exists s'',
          run (solve (with_writers vtk partio b) (with_output_steps k cfg)) s =
            inr (true, s'') /\
          world s'' = world s' /\
          step_ s'' = step_ s' /\
          pressure_smoothing_ s'' = pressure_smoothing_ s').
Proof.
  intros Hnz Hres.
  destruct (solve_outcome b cfg requested s Hnz Hres)
    as [s' [Hrun [Hcalls [Hworld [Hsmooth Hstep]]]]].
  exists s'. split; [exact Hrun |]. split; [exact Hcalls |].
  split; [| split; [| split]].
  - destruct (setup_path requested (world s)); try reflexivity.
    unfold setup_calls, restore_calls.
    destruct (graph_partitioning b); reflexivity.
  - intros step. apply step_calls_writers.
  - intros c render step nsteps st. eexists. split; [reflexivity |].
    repeat split.
  - intros k vtk partio Hk.
    assert (Hnz' : moduli_nonzero (with_writers vtk partio b)
                     (with_output_steps k cfg)).
    { split; [exact Hk | exact (proj2 Hnz)]. }
    destruct (solve_outcome (with_writers vtk partio b) (with_output_steps k cfg)
                requested s Hnz' Hres)
      as [s'' [Hrun' [_ [Hworld' [Hsmooth' Hstep']]]]].
    exists s''. split; [exact Hrun' |].
    rewrite Hworld, Hworld', Hsmooth, Hsmooth', Hstep, Hstep'.
    repeat split.
Qed.

(** C8, as amended.  In every step, [compute_particle_kinematics] is
    called once, with the damping model named by the literal ["Cundall"]
    whatever damping type the configuration holds, with the configured
    damping factor, with phase 0, and with the configured [velocity_update_]
    mode, which is what the scheme selects the update mode by. *)
Theorem particle_kinematics_arguments (b : Build) (cfg : Config)
    (requested : bool) (s : Solver) :
  moduli_nonzero b cfg ->
  run (resume_option cfg) s = inr (requested, s) ->
  exists s',
    run (solve b cfg) s = inr (true, s') /\
    calls s' =
      calls s ++ setup_calls b (setup_path requested (world s))
      ++ flat_map (step_calls b cfg (io_analysis_bool cfg "pressure_smoothing"))
           (remaining_steps cfg (loop_entry_step requested s)) /\
    filter is_particle_kinematics
      (setup_calls b (setup_path requested (world s))) = [] /\
    forall step,
      filter is_particle_kinematics
        (step_calls b cfg (io_analysis_bool cfg "pressure_smoothing") step) =
      [ Call.compute_particle_kinematics (velocity_update_ cfg) 0 "Cundall"
          (damping_factor_ cfg) ].
Proof.
  intros Hnz Hres.
  destruct (solve_outcome b cfg requested s Hnz Hres) as [s' [Hrun [Hcalls _]]].
  exists s'. split; [exact Hrun |]. split; [exact Hcalls |]. split.
  - destruct (setup_path requested (world s)); try reflexivity.
    unfold setup_calls, restore_calls.
    destruct (graph_partitioning b); reflexivity.
  - intros step. apply step_calls_particle_kinematics.
Qed.

End SolverFacts.

(** ** Edge behaviour and further properties of the run *)

Section EdgeFacts.

Context {D : Domain} {particle_ops : ParticleBase} {mesh_ops : Mesh}
  {scheme_ops : MPMScheme} {base_ops : MPMBase}.

(** [solve] is the setup followed by the main loop. *)
Lemma solve_as_loop (b : Build) (cfg : Config) (requested : bool) (s : Solver) :
  run (resume_option cfg) s = inr (requested, s) ->
  run (solve b cfg) s =
  match run (main_loop b cfg 0
               (N.to_nat (nsteps_ cfg - loop_entry_step requested s)))
            (after_setup b cfg requested s) with
  | inl e => inl e
  | inr (_, s') => inr (true, s')
  end.
Proof.
  intros Hres. unfold solve. rewrite run_bind, Hres.
  unfold run in *.
  unfold after_setup, loop_entry_step, setup_path, setup_world, setup_calls,
    entry_world, fresh_world, fresh_calls, restore_world, restore_calls.
  destruct requested; simpl.
  - unfold checkpoint_resume. simpl.
    destruct (read_checkpoint _) as [[persisted restored] |]; simpl.
    + destruct (graph_partitioning b); simpl;
        repeat rewrite <- app_assoc; simpl;
        destruct (runStateT _ _) as [e | [u s']]; reflexivity.
    + repeat rewrite <- app_assoc; simpl.
      destruct (runStateT _ _) as [e | [u s']]; reflexivity.
  - repeat rewrite <- app_assoc; simpl.
    destruct (runStateT _ _) as [e | [u s']]; reflexivity.
Qed.


Lemma resume_option_any_state (cfg : Config) (requested : bool) (s s0 : Solver) :
  run (resume_option cfg) s = inr (requested, s) ->
  run (resume_option cfg) s0 = inr (requested, s0).
Proof.
  unfold resume_option, run.
  destruct (Json.find "resume" (analysis_ cfg)) as [entry |]; simpl.
  - destruct (Json.at_key "resume" (analysis_ cfg)) as [e | outer]; simpl;
      [discriminate |].
    destruct (Json.at_key "resume" outer) as [e | inner]; simpl; [discriminate |].
    destruct (Json.get_bool inner) as [e | flag]; simpl; [discriminate |].
    intros Heq. injection Heq as Hflag. now subst.
  - intros Heq. injection Heq as Hflag. now subst.
Qed.

(** A zero divisor ends the loop body. *)
Lemma loop_body_fault (b : Build) (cfg : Config) (s : Solver) :
  zero_modulus b cfg ->
  run (loop_body b cfg 0) s = inl modulo_by_zero.
Proof.
  intros Hzero. unfold loop_body, remainder, run.
  destruct (graph_partitioning b) eqn:G; simpl.
  - destruct (N.eqb_spec (nload_balance_steps_ cfg) 0) as [Hlb | Hlb]; simpl;
      [reflexivity |].
    destruct Hzero as [Hout | [_ Hlb']]; [| contradiction].
    rewrite Hout. simpl.
    destruct ((step_ s mod nload_balance_steps_ cfg =? 0) && negb (step_ s =? 0));
      reflexivity.
  - destruct Hzero as [Hout | [Hgraph _]]; [| congruence].
    rewrite Hout. reflexivity.
Qed.


(** X1.  A ["resume"] entry without a boolean ["resume"] member makes
    [solve] end in the JSON library's [type_error]: 305 when the entry is
    neither null nor an object, 302 otherwise.  The exception comes from
    the resume test, the first thing [solve] does with the configuration,
    whatever the build and the rest of the configuration. *)
Theorem malformed_resume_entry_raises (b : Build) (cfg : Config) (s : Solver)
    (entry : Json.json) :
  Json.find "resume" (analysis_ cfg) = Some entry ->
  (forall flag, Json.find "resume" entry <> Some (Json.boolean flag)) ->
  run (solve b cfg) s = inl (json_exception (resume_type_error entry)).
Proof.
  intros Houter Hinner.
  assert (Hres : run (resume_option cfg) s =
                 inl (json_exception (resume_type_error entry))).
  { unfold resume_option, run. rewrite Houter.
    rewrite (find_at_key _ _ _ Houter). simpl.
    destruct entry as [| flag | z | text | items | members]; simpl;
      try reflexivity.
    simpl in Hinner.
    destruct (Json.lookup "resume" members) as [inner |]; [| reflexivity].
    destruct inner; simpl; try reflexivity.
    exfalso. eapply Hinner. reflexivity. }
  unfold solve. rewrite run_bind, Hres. reflexivity.
Qed.

Lemma main_loop_with_analysis (b : Build) (cfg : Config) (analysis : Json.json)
    (fuel : nat) (s : Solver) :
  run (main_loop b (with_analysis analysis cfg) 0 fuel) s =
  run (main_loop b cfg 0 fuel) s.
Proof.
  revert s. induction fuel as [| fuel IH]; intros s; rewrite !main_loop_unfold;
    cbn [nsteps_ with_analysis]; destruct (step_ s <? nsteps_ cfg);
    try reflexivity.
  change (loop_body b (with_analysis analysis cfg) 0) with (loop_body b cfg 0).
  destruct (run (loop_body b cfg 0) s) as [e | [u s']]; [reflexivity | apply IH].
Qed.

(** X2.  A configuration with [resume.resume = false] runs exactly as one
    with no ["resume"] entry at all: the two runs have the same outcome,
    fault or final solver. *)
Theorem declined_resume_equals_absent (b : Build) (cfg : Config) (s : Solver)
    (entry analysis : Json.json) :
  Json.find "resume" (analysis_ cfg) = Some entry ->
  Json.find "resume" entry = Some (Json.boolean false) ->
  Json.find "resume" analysis = None ->
  run (solve b cfg) s = run (solve b (with_analysis analysis cfg)) s.
Proof.
  intros Houter Hinner Habsent.
  pose proof (resume_option_present cfg s entry false Houter Hinner) as Hres.
  pose proof (resume_option_absent (with_analysis analysis cfg) s Habsent) as Hres0.
  rewrite (solve_as_loop b cfg false s Hres).
  rewrite (solve_as_loop b (with_analysis analysis cfg) false s Hres0).
  rewrite main_loop_with_analysis. reflexivity.
Qed.

Lemma main_loop_fault (b : Build) (cfg : Config) (fuel : nat) (s : Solver) :
  zero_modulus b cfg ->
  step_ s < nsteps_ cfg ->
  fuel <> O ->
  run (main_loop b cfg 0 fuel) s = inl modulo_by_zero.
Proof.
  intros Hzero Hlt Hfuel. rewrite main_loop_unfold.
  destruct (N.ltb_spec (step_ s) (nsteps_ cfg)) as [_ | Hge]; [| lia].
  destruct fuel as [| fuel]; [contradiction |].
  now rewrite (loop_body_fault b cfg s Hzero).
Qed.

(** X3.  With a step left to execute, a zero output interval, or a zero
    load-balance interval on a build with graph partitioning, ends [solve]
    in the remainder by zero of the first step; this holds at step 0 too,
    where no load balancing would take place, because the remainder is
    taken before the test [step_ != 0]. *)
Theorem zero_interval_faults (b : Build) (cfg : Config) (requested : bool)
    (s : Solver) :
  run (resume_option cfg) s = inr (requested, s) ->
  loop_entry_step requested s < nsteps_ cfg ->
  zero_modulus b cfg ->
  run (solve b cfg) s = inl modulo_by_zero.
Proof.
  intros Hres Hlt Hzero.
  rewrite (solve_as_loop b cfg requested s Hres).
  rewrite main_loop_fault; [reflexivity | exact Hzero | exact Hlt | lia].
Qed.

(** X4.  When the loop is entered at or beyond [nsteps_] (a solver that
    has already run, a checkpoint at or past the last step), [solve]
    returns [true] after the setup alone: no step is executed, no file is
    written, the step counter stays where it is, and the intervals are
    never looked at, so even zero intervals do no harm. *)
Theorem no_step_left_returns (b : Build) (cfg : Config) (requested : bool)
    (s : Solver) :
  run (resume_option cfg) s = inr (requested, s) ->
  nsteps_ cfg <= loop_entry_step requested s ->
  exists s',
    run (solve b cfg) s = inr (true, s') /\
    calls s' = calls s ++ setup_calls b (setup_path requested (world s)) /\
    executed_steps (setup_calls b (setup_path requested (world s))) = [] /\
    outputs s' = outputs s /\
    step_ s' = loop_entry_step requested s /\
    world s' = setup_world requested (world s).
Proof.
  intros Hres Hge.
  exists (after_setup b cfg requested s).
  rewrite (solve_as_loop b cfg requested s Hres), main_loop_unfold.
  cbn [after_setup step_].
  destruct (N.ltb_spec (loop_entry_step requested s) (nsteps_ cfg)) as [Hlt | _];
    [lia |].
  repeat split. apply setup_calls_executed.
Qed.


(** X6.  After a run that returns, the step counter is the larger of the
    entry step and [nsteps_], so [nsteps_] whenever the loop was entered at
    or below it, and the number of steps executed is [nsteps_] minus the
    entry step, cut off at zero. *)
Theorem loop_leaves_counter_at_nsteps (b : Build) (cfg : Config)
    (requested : bool) (s : Solver) :
  moduli_nonzero b cfg ->
  run (resume_option cfg) s = inr (requested, s) ->
  exists s' added,
    run (solve b cfg) s = inr (true, s') /\
    calls s' = calls s ++ added /\
    step_ s' = N.max (loop_entry_step requested s) (nsteps_ cfg) /\
    (loop_entry_step requested s <= nsteps_ cfg -> step_ s' = nsteps_ cfg) /\
    List.length (executed_steps added) =
      N.to_nat (nsteps_ cfg - loop_entry_step requested s).
Proof.
  intros Hnz Hres.
  destruct (solve_outcome b cfg requested s Hnz Hres)
    as [s' [Hrun [Hcalls [_ [_ Hstep]]]]].
  exists s'. eexists. split; [exact Hrun |]. split; [exact Hcalls |].
  split; [exact Hstep |]. split; [lia |].
  rewrite executed_steps_app, executed_steps_flat_map, setup_calls_executed.
  apply steps_from_length.
Qed.

(** X7.  [solve] never resets the step counter.  Called a second time on
    the solver a first run left behind, with a configuration that does not
    resume, it goes through the fresh-start setup again and then executes
    no step and writes no file. *)
Theorem second_solve_runs_no_step (b : Build) (cfg : Config) (s : Solver) :
  moduli_nonzero b cfg ->
  run (resume_option cfg) s = inr (false, s) ->
  exists s1 s2,
    run (solve b cfg) s = inr (true, s1) /\
    run (solve b cfg) s1 = inr (true, s2) /\
    calls s2 =
      calls s1
      ++ [ Call.initialise_materials;
           Call.initialise_mesh;
           Call.initialise_particles;
           Call.iterate_over_particles Call.compute_mass;
           Call.mpi_domain_decompose true;
           Call.initialise_loads ] /\
    outputs s2 = outputs s1 /\
    step_ s2 = step_ s1.
Proof.
  intros Hnz Hres.
  destruct (solve_outcome b cfg false s Hnz Hres)
    as [s1 [Hrun1 [_ [_ [_ Hstep1]]]]].
  pose proof (resume_option_any_state cfg false s s1 Hres) as Hres1.
  assert (Hge : nsteps_ cfg <= loop_entry_step false s1).
  { unfold loop_entry_step, setup_path. lia. }
  destruct (no_step_left_returns b cfg false s1 Hres1 Hge)
    as [s2 [Hrun2 [Hcalls2 [_ [Hout2 [Hstep2 _]]]]]].
  exists s1, s2. repeat split; assumption.
Qed.

Lemma after_steps_with_interface (b : Build) (cfg : Config) (v : bool)
    (k : nat) (s : Solver) :
  after_steps b (with_interface v cfg) k s = after_steps b cfg k s.
Proof.
  revert s. induction k as [| k IH]; intros s; simpl; [reflexivity |].
  rewrite IH. reflexivity.
Qed.

Lemma after_steps_set_interface (b : Build) (cfg : Config) (v : bool)
    (k : nat) (s : Solver) :
  after_steps b cfg k (set_interface v s) = set_interface v (after_steps b cfg k s).
Proof.
  revert s. induction k as [| k IH]; intros s; simpl; [reflexivity |].
  rewrite <- IH. reflexivity.
Qed.

(** X8.  The answer to [analysis_bool("interface")] is stored in
    [interface_] and never read: two runs that differ in that answer only
    end in solvers that differ in [interface_] only, with the same call
    log, collaborator state, files and step counter. *)
Theorem interface_flag_unused (b : Build) (cfg : Config) (requested : bool)
    (s : Solver) (v : bool) :
  moduli_nonzero b cfg ->
  run (resume_option cfg) s = inr (requested, s) ->
  exists s1 s2,
    run (solve b cfg) s = inr (true, s1) /\
    run (solve b (with_interface v cfg)) s = inr (true, s2) /\
    s2 = set_interface v s1 /\
    interface_ s1 = io_analysis_bool cfg "interface".
Proof.
  intros Hnz Hres.
  assert (Hnz' : moduli_nonzero b (with_interface v cfg)) by exact Hnz.
  assert (Hres' : run (resume_option (with_interface v cfg)) s =
                  inr (requested, s)) by exact Hres.
  eexists. eexists.
  split; [exact (solve_run b cfg requested s Hnz Hres) |].
  split; [exact (solve_run b (with_interface v cfg) requested s Hnz' Hres') |].
  split.
  - rewrite after_steps_with_interface.
    change (after_setup b (with_interface v cfg) requested s)
      with (set_interface v (after_setup b cfg requested s)).
    apply after_steps_set_interface.
  - generalize (N.to_nat
                  (nsteps_ cfg - step_ (after_setup b cfg requested s))).
    intros k.
    assert (Hkeep : forall k s0,
               interface_ (after_steps b cfg k s0) = interface_ s0).
    { clear. intros k. induction k as [| k IH]; intros s0; simpl;
        [| rewrite IH]; reflexivity. }
    rewrite Hkeep. reflexivity.
Qed.

Lemma steps_from_snoc (from : N) (k : nat) :
  steps_from from (S k) = steps_from from k ++ [from + N.of_nat k].
Proof.
  revert from. induction k as [| k IH]; intros from.
  - simpl. f_equal. lia.
  - change (steps_from from (S (S k)))
      with (from :: steps_from (N.succ from) (S k)).
    rewrite IH. simpl. do 3 f_equal. lia.
Qed.

Lemma ceiling_step (n k : N) :
  k <> 0 ->
  (N.succ n + k - 1) / k = (n + k - 1) / k + (if n mod k =? 0 then 1 else 0).
Proof.
  intros Hk.
  pose proof (N.div_mod n k Hk) as Hdiv.
  pose proof (N.mod_lt n k Hk) as Hlt.
  replace (N.succ n + k - 1) with (n + 1 * k) by lia.
  rewrite N.div_add by exact Hk.
  generalize dependent (n mod k). generalize dependent (n / k).
  intros q r Hdiv Hlt.
  destruct (N.eqb_spec r 0) as [Hzero | Hpos].
  - f_equal. apply (N.div_unique _ _ _ (k - 1)); lia.
  - rewrite N.add_0_r.
    apply (N.div_unique _ _ _ (r - 1)); [lia |].
    rewrite N.mul_add_distr_l. lia.
Qed.

Lemma count_multiples (k : N) (n : nat) :
  k <> 0 ->
  N.of_nat (List.length (filter (fun step => step mod k =? 0) (steps_from 0 n))) =
  (N.of_nat n + k - 1) / k.
Proof.
  intros Hk. induction n as [| n IH].
  - simpl. symmetry. apply N.div_small. lia.
  - rewrite steps_from_snoc, filter_app, length_app, Nat2N.inj_add, IH.
    rewrite Nat2N.inj_succ, (ceiling_step _ _ Hk). simpl.
    destruct (N.of_nat n mod k =? 0); reflexivity.
Qed.

Lemma step_calls_hdf5 (b : Build) (cfg : Config) (smoothing : bool) (step : N) :
  filter is_hdf5 (step_calls b cfg smoothing step) =
  if output_due cfg step then [Call.write_hdf5 step (nsteps_ cfg)] else [].
Proof.
  unfold step_calls, load_balance_calls, halo_calls, output_calls.
  destruct (graph_partitioning b), (load_balance_due cfg step),
    (output_due cfg step), (USE_VTK b), (USE_PARTIO b); reflexivity.
Qed.

Lemma flat_map_hdf5_count (b : Build) (cfg : Config) (smoothing : bool)
    (steps : list N) :
  List.length (filter is_hdf5 (flat_map (step_calls b cfg smoothing) steps)) =
  List.length (filter (output_due cfg) steps).
Proof.
  induction steps as [| i steps IH]; simpl; [reflexivity |].
  rewrite filter_app, length_app, step_calls_hdf5, IH.
  destruct (output_due cfg i); reflexivity.
Qed.

Lemma setup_calls_hdf5 (b : Build) (p : Path) :
  filter is_hdf5 (setup_calls b p) = [].
Proof. destruct p; simpl; try reflexivity. destruct (graph_partitioning b); reflexivity. Qed.

(** X9.  A run that enters the loop at step 0 writes
    [ceil (nsteps_ / output_steps_)] checkpoints: one for every multiple of
    the output interval below [nsteps_], step 0 included. *)
Theorem checkpoint_count (b : Build) (cfg : Config) (requested : bool)
    (s : Solver) :
  moduli_nonzero b cfg ->
  run (resume_option cfg) s = inr (requested, s) ->
  loop_entry_step requested s = 0 ->
  exists s' added,
    run (solve b cfg) s = inr (true, s') /\
    calls s' = calls s ++ added /\
    N.of_nat (List.length (filter is_hdf5 added)) =
      (nsteps_ cfg + output_steps_ cfg - 1) / output_steps_ cfg.
Proof.
  intros Hnz Hres Hentry.
  destruct (solve_outcome b cfg requested s Hnz Hres) as [s' [Hrun [Hcalls _]]].
  exists s'. eexists. split; [exact Hrun |]. split; [exact Hcalls |].
  rewrite filter_app, setup_calls_hdf5, app_nil_l, flat_map_hdf5_count, Hentry.
  unfold remaining_steps, output_due. simpl.
  rewrite (count_multiples _ _ (proj1 Hnz)).
  rewrite N.sub_0_r, N2Nat.id. reflexivity.
Qed.

Lemma step_calls_sweeps (b : Build) (cfg : Config) (smoothing : bool) (step : N) :
  sweeps (step_calls b cfg smoothing step) = [].
Proof.
  unfold step_calls, load_balance_calls, halo_calls, output_calls.
  destruct (graph_partitioning b), (load_balance_due cfg step),
    (output_due cfg step), (USE_VTK b), (USE_PARTIO b); reflexivity.
Qed.

Lemma step_calls_no_pressure_smoothing (b : Build) (cfg : Config)
    (smoothing : bool) (step : N) :
  filter is_pressure_smoothing (step_calls b cfg smoothing step) = [].
Proof.
  unfold step_calls, load_balance_calls, halo_calls, output_calls.
  destruct (graph_partitioning b), (load_balance_due cfg step),
    (output_due cfg step), (USE_VTK b), (USE_PARTIO b); reflexivity.
Qed.

Lemma sweeps_app (l1 l2 : list Call.t) :
  sweeps (l1 ++ l2) = sweeps l1 ++ sweeps l2.
Proof. unfold sweeps. apply flat_map_app. Qed.

Lemma flat_map_sweeps (b : Build) (cfg : Config) (smoothing : bool)
    (steps : list N) :
  sweeps (flat_map (step_calls b cfg smoothing) steps) = [].
Proof.
  induction steps as [| i steps IH]; simpl; [reflexivity |].
  now rewrite sweeps_app, IH, step_calls_sweeps.
Qed.

(** X10.  [solve] leaves the stress update to the scheme: it never sweeps
    [compute_strain], [update_volume] or [compute_stress] over the
    particles and never calls [pressure_smoothing] itself, so the solver's
    own [compute_stress_strain] takes no part in a run.  The one particle
    sweep of a run is [compute_mass], made once on the paths that do not
    resume. *)
Theorem solve_sweeps_mass_only (b : Build) (cfg : Config) (requested : bool)
    (s : Solver) :
  moduli_nonzero b cfg ->
  run (resume_option cfg) s = inr (requested, s) ->
  exists s' added,
    run (solve b cfg) s = inr (true, s') /\
    calls s' = calls s ++ added /\
    sweeps added =
      match setup_path requested (world s) with
      | resumed _ => []
      | _ => [Call.compute_mass]
      end /\
    filter is_pressure_smoothing added = [].
Proof.
  intros Hnz Hres.
  destruct (solve_outcome b cfg requested s Hnz Hres) as [s' [Hrun [Hcalls _]]].
  exists s'. eexists. split; [exact Hrun |]. split; [exact Hcalls |]. split.
  - rewrite sweeps_app, flat_map_sweeps, app_nil_r.
    destruct (setup_path requested (world s)); try reflexivity.
    unfold setup_calls, restore_calls.
    destruct (graph_partitioning b); reflexivity.
  - rewrite filter_app.
    rewrite (filter_flat_map_nil _ _ _ (step_calls_no_pressure_smoothing b cfg _)).
    rewrite app_nil_r.
    destruct (setup_path requested (world s)); try reflexivity.
    unfold setup_calls, restore_calls.
    destruct (graph_partitioning b); reflexivity.
Qed.


End EdgeFacts.

(** ** Runs of the concrete instance *)

Module ToyRuns.
Import Toy.

Ltac nonzero := split; [vm_compute; discriminate | intros _; vm_compute; discriminate].

Lemma step_order_witness :
  moduli_nonzero distributed plain /\
  run (resume_option plain) (solver None) = inr (false, solver None) /\
  exists s',
    run (solve distributed plain) (solver None) = inr (true, s') /\
    executed_steps (calls s') = [0; 1; 2].
Proof.
  assert (Hnz : moduli_nonzero distributed plain) by nonzero.
  assert (Hres : run (resume_option plain) (solver None) = inr (false, solver None))
    by reflexivity.
  split; [exact Hnz |]. split; [exact Hres |].
  destruct (step_order distributed plain false (solver None) Hnz Hres)
    as [s' [Hrun Hcalls]].
  exists s'. split; [exact Hrun |]. rewrite Hcalls. reflexivity.
Defined.

(** C1, as written, fails.  On a build with graph partitioning, with a
    load-balance interval of 1, step 1 is a load-balance step.  Its
    [mpi_domain_decompose(false)] is the call right before step 1's
    [inject_particles] (time [1 * dt_ = 10]), after step 0 is over, and not
    between [locate_particles] and the writers. *)
Lemma specified_step_order_fails :
  exists s',
    run (solve distributed plain) (solver None) = inr (true, s') /\
    load_balance_due plain 1 = true /\
    (exists before after,
        calls s' =
          before
          ++ [Call.mpi_domain_decompose false; Call.inject_particles 10%Z]
          ++ after /\
        executed_steps before = [0]) /\
    filter named_in_specified_order (calls s') <>
      setup_calls distributed fresh_start
      ++ flat_map (specified_step_calls distributed plain true)
           (remaining_steps plain 0).
Proof.
  exists (final distributed plain (solver None)).
  split; [vm_compute; reflexivity |]. split; [reflexivity |]. split.
  - exists (firstn 19 (calls (final distributed plain (solver None)))).
    exists (skipn 21 (calls (final distributed plain (solver None)))).
    split; vm_compute; reflexivity.
  - intros Heq. vm_compute in Heq. discriminate Heq.
Qed.

Lemma solve_status_true_witness :
  exists s' status,
    run (solve distributed resuming) (solver (Some 1)) = inr (status, s') /\
    status = true.
Proof.
  destruct (run (solve distributed resuming) (solver (Some 1)))
    as [e | [status s']] eqn:Hrun.
  - vm_compute in Hrun. discriminate Hrun.
  - exists s', status. split; [reflexivity |].
    exact (solve_status_true distributed resuming (solver (Some 1)) s' status Hrun).
Defined.

Lemma absent_resume_entry_witness :
  moduli_nonzero serial plain /\
  Json.find "resume" (analysis_ plain) = None /\
  exists s',
    run (solve serial plain) (solver None) = inr (true, s') /\
    firstn 6 (calls s') =
      [ Call.initialise_materials; Call.initialise_mesh;
        Call.initialise_particles;
        Call.iterate_over_particles Call.compute_mass;
        Call.mpi_domain_decompose true; Call.initialise_loads ].
Proof.
  assert (Hnz : moduli_nonzero serial plain) by nonzero.
  assert (Habsent : Json.find "resume" (analysis_ plain) = None) by reflexivity.
  split; [exact Hnz |]. split; [exact Habsent |].
  destruct (absent_resume_entry_is_fresh_start serial plain (solver None)
              Hnz Habsent) as [_ [s' [Hrun [Hcalls _]]]].
  exists s'. split; [exact Hrun |]. rewrite Hcalls. reflexivity.
Defined.

Lemma resuming_requested : resume_requested resuming.
Proof. eexists. split; reflexivity. Defined.

Lemma failed_resume_witness :
  moduli_nonzero distributed resuming /\
  resume_requested resuming /\
  step_ (solver None) = 0 /\
  read_checkpoint
    (initialise_particle_types
       (initialise_mesh (initialise_materials (world (solver None))))) = None /\
  exists s',
    run (solve distributed resuming) (solver None) = inr (true, s') /\
    executed_steps (calls s') = [0; 1; 2] /\
    decompositions (calls s') = [true; false; false].
Proof.
  assert (Hnz : moduli_nonzero distributed resuming) by nonzero.
  assert (Hfail : read_checkpoint
            (initialise_particle_types
               (initialise_mesh (initialise_materials (world (solver None))))) =
            None) by reflexivity.
  split; [exact Hnz |]. split; [exact resuming_requested |].
  split; [reflexivity |]. split; [exact Hfail |].
  destruct (failed_resume_falls_back distributed resuming (solver None)
              Hnz resuming_requested eq_refl Hfail)
    as [s' [added [Hrun [Hcalls [Hadded _]]]]].
  exists s'. split; [exact Hrun |].
  rewrite Hcalls, Hadded. split; reflexivity.
Defined.

Lemma successful_resume_witness :
  moduli_nonzero distributed resuming /\
  resume_requested resuming /\
  read_checkpoint
    (initialise_particle_types
       (initialise_mesh (initialise_materials (world (solver (Some 1)))))) =
    Some (1, {| particles := [5%Z]; background := (None, 0) |}) /\
  exists s',
    run (solve distributed resuming) (solver (Some 1)) = inr (true, s') /\
    executed_steps (calls s') = [1; 2] /\
    decompositions (calls s') = [false; false].
Proof.
  assert (Hnz : moduli_nonzero distributed resuming) by nonzero.
  assert (Hload : read_checkpoint
            (initialise_particle_types
               (initialise_mesh
                  (initialise_materials (world (solver (Some 1)))))) =
            Some (1, {| particles := [5%Z]; background := (None, 0) |}))
    by reflexivity.
  split; [exact Hnz |]. split; [exact resuming_requested |].
  split; [exact Hload |].
  destruct (successful_resume_continues distributed resuming (solver (Some 1))
              1 _ Hnz resuming_requested Hload)
    as [s' [added [Hrun [Hcalls [Hadded _]]]]].
  exists s'. split; [exact Hrun |].
  rewrite Hcalls, Hadded. split; reflexivity.
Defined.

Lemma corrector_follows_forces_witness :
  moduli_nonzero serial plain /\
  run (resume_option plain) (solver None) = inr (false, solver None) /\
  exists s',
    run (solve serial plain) (solver None) = inr (true, s') /\
    world s' =
      steps_world (fun w => w) serial plain true [0; 1; 2]
        (setup_world false (world (solver None))).
Proof.
  assert (Hnz : moduli_nonzero serial plain) by nonzero.
  assert (Hres : run (resume_option plain) (solver None) = inr (false, solver None))
    by reflexivity.
  split; [exact Hnz |]. split; [exact Hres |].
  destruct (corrector_follows_forces serial plain false (solver None) Hnz Hres)
    as [s' [added [Hrun [_ [_ [_ Hworld]]]]]].
  exists s'. split; [exact Hrun |]. rewrite Hworld. reflexivity.
Defined.

Lemma load_balancing_schedule_witness :
  moduli_nonzero distributed resuming /\
  run (resume_option resuming) (solver None) = inr (true, solver None) /\
  exists s',
    run (solve distributed resuming) (solver None) = inr (true, s') /\
    decompositions (calls s') = [true; false; false].
Proof.
  assert (Hnz : moduli_nonzero distributed resuming) by nonzero.
  assert (Hres : run (resume_option resuming) (solver None) =
                 inr (true, solver None)) by reflexivity.
  split; [exact Hnz |]. split; [exact Hres |].
  destruct (load_balancing_schedule distributed resuming true (solver None)
              Hnz Hres) as [s' [Hrun [Hcalls _]]].
  exists s'. split; [exact Hrun |]. rewrite Hcalls. reflexivity.
Defined.

(** C5, as written, fails.  On a build without graph partitioning, step 1
    of a run with a load-balance interval of 1 satisfies
    [1 mod 1 = 0] and [1 <> 0] and is executed, and the only decomposition
    of the whole run is the initial one: step 1 does not re-decompose. *)
Lemma serial_build_never_rebalances :
  exists s',
    run (solve serial plain) (solver None) = inr (true, s') /\
    executed_steps (calls s') = [0; 1; 2] /\
    1 mod nload_balance_steps_ plain = 0 /\
    1 <> 0 /\
    decompositions (calls s') = [true].
Proof.
  exists (final serial plain (solver None)).
  split; [vm_compute; reflexivity |].
  split; [vm_compute; reflexivity |].
  split; [reflexivity |]. split; [discriminate |].
  vm_compute. reflexivity.
Qed.

Lemma compute_stress_strain_witness :
  pressure_smoothing_ (final serial plain (solver None)) =
    io_analysis_bool plain "pressure_smoothing" /\
  exists s',
    run (compute_stress_strain plain 0) (final serial plain (solver None)) =
      inr (tt, s') /\
    particles (world s') = [195738314%Z; 195738314%Z; 195738314%Z;
                            195738314%Z; 195738314%Z].
Proof.
  assert (Hflag : pressure_smoothing_ (final serial plain (solver None)) =
                  io_analysis_bool plain "pressure_smoothing") by reflexivity.
  split; [exact Hflag |].
  destruct (compute_stress_strain_passes plain 0
              (final serial plain (solver None)) Hflag)
    as [s' [Hrun [_ [Hworld _]]]].
  exists s'. split; [exact Hrun |]. rewrite Hworld. reflexivity.
Defined.

Lemma output_schedule_witness :
  moduli_nonzero distributed plain /\
  run (resume_option plain) (solver None) = inr (false, solver None) /\
  exists s',
    run (solve distributed plain) (solver None) = inr (true, s') /\
    filter is_writer (calls s') =
      [ Call.write_hdf5 0 3; Call.write_vtk 0 3;
        Call.write_hdf5 2 3; Call.write_vtk 2 3 ].
Proof.
  assert (Hnz : moduli_nonzero distributed plain) by nonzero.
  assert (Hres : run (resume_option plain) (solver None) = inr (false, solver None))
    by reflexivity.
  split; [exact Hnz |]. split; [exact Hres |].
  destruct (output_schedule distributed plain false (solver None) Hnz Hres)
    as [s' [Hrun [Hcalls _]]].
  exists s'. split; [exact Hrun |]. rewrite Hcalls. reflexivity.
Defined.

Lemma particle_kinematics_arguments_witness :
  moduli_nonzero serial plain /\
  run (resume_option plain) (solver None) = inr (false, solver None) /\
  exists s',
    run (solve serial plain) (solver None) = inr (true, s') /\
    filter is_particle_kinematics (calls s') =
      [ Call.compute_particle_kinematics true 0 "Cundall" 2%Z;
        Call.compute_particle_kinematics true 0 "Cundall" 2%Z;
        Call.compute_particle_kinematics true 0 "Cundall" 2%Z ].
Proof.
  assert (Hnz : moduli_nonzero serial plain) by nonzero.
  assert (Hres : run (resume_option plain) (solver None) = inr (false, solver None))
    by reflexivity.
  split; [exact Hnz |]. split; [exact Hres |].
  destruct (particle_kinematics_arguments serial plain false (solver None)
              Hnz Hres) as [s' [Hrun [Hcalls _]]].
  exists s'. split; [exact Hrun |]. rewrite Hcalls. reflexivity.
Defined.

(** C8, as written, fails.  The configuration names the damping type
    ["None"]; the particle-kinematics calls of the run, one per step, all
    carry ["Cundall"]. *)
Lemma damping_model_not_configured :
  exists s',
    run (solve serial plain) (solver None) = inr (true, s') /\
    damping_type_ plain = "None" /\
    damping_type_ plain <> "Cundall" /\
    filter is_particle_kinematics (calls s') =
      [ Call.compute_particle_kinematics true 0 "Cundall" 2%Z;
        Call.compute_particle_kinematics true 0 "Cundall" 2%Z;
        Call.compute_particle_kinematics true 0 "Cundall" 2%Z ].
Proof.
  exists (final serial plain (solver None)).
  split; [vm_compute; reflexivity |]. split; [reflexivity |].
  split; [discriminate |].
  vm_compute. reflexivity.
Qed.

End ToyRuns.

(** ** Runs at the edges *)

Module EdgeRuns.
Import Toy.
Import ToyEdges.

Ltac nonzero := split; [vm_compute; discriminate | intros _; vm_compute; discriminate].

Lemma malformed_resume_entry_witness :
  Json.find "resume" (analysis_ bare) = Some (Json.boolean true) /\
  (forall flag,
      Json.find "resume" (Json.boolean true) <> Some (Json.boolean flag)) /\
  run (solve serial bare) (solver None) =
    inl (json_exception (Json.type_error 305)) /\
  run (solve serial incomplete) (solver None) =
    inl (json_exception (Json.type_error 302)).
Proof.
  assert (Hbare : Json.find "resume" (analysis_ bare) = Some (Json.boolean true))
    by reflexivity.
  assert (Hnone : forall flag,
             Json.find "resume" (Json.boolean true) <> Some (Json.boolean flag))
    by (intros flag Heq; discriminate Heq).
  split; [exact Hbare |]. split; [exact Hnone |]. split.
  - exact (malformed_resume_entry_raises serial bare (solver None) _ Hbare Hnone).
  - apply (malformed_resume_entry_raises serial incomplete (solver None)
             (Json.object [("step", Json.number 1)])).
    + reflexivity.
    + intros flag Heq. discriminate Heq.
Defined.

Lemma declined_resume_witness :
  Json.find "resume" (analysis_ declined) =
    Some (Json.object [("resume", Json.boolean false)]) /\
  Json.find "resume" (Json.object [("resume", Json.boolean false)]) =
    Some (Json.boolean false) /\
  Json.find "resume" (analysis_ plain) = None /\
  run (solve distributed declined) (solver None) =
  run (solve distributed (with_analysis (analysis_ plain) declined)) (solver None).
Proof.
  split; [reflexivity |]. split; [reflexivity |]. split; [reflexivity |].
  exact (declined_resume_equals_absent distributed declined (solver None)
           (Json.object [("resume", Json.boolean false)]) (analysis_ plain)
           eq_refl eq_refl eq_refl).
Defined.

Lemma zero_interval_witness :
  run (resume_option no_output_interval) (solver None) = inr (false, solver None) /\
  loop_entry_step false (solver None) < nsteps_ no_output_interval /\
  zero_modulus serial no_output_interval /\
  run (solve serial no_output_interval) (solver None) = inl modulo_by_zero.
Proof.
  assert (Hres : run (resume_option no_output_interval) (solver None) =
                 inr (false, solver None)) by reflexivity.
  assert (Hlt : loop_entry_step false (solver None) < nsteps_ no_output_interval)
    by reflexivity.
  assert (Hzero : zero_modulus serial no_output_interval) by (left; reflexivity).
  split; [exact Hres |]. split; [exact Hlt |]. split; [exact Hzero |].
  exact (zero_interval_faults serial no_output_interval false (solver None)
           Hres Hlt Hzero).
Defined.

Lemma no_step_left_witness :
  run (resume_option no_output_interval) finished = inr (false, finished) /\
  nsteps_ no_output_interval <= loop_entry_step false finished /\
  exists s',
    run (solve distributed no_output_interval) finished = inr (true, s') /\
    List.length (calls s') = 6%nat /\
    step_ s' = 3.
Proof.
  assert (Hres : run (resume_option no_output_interval) finished =
                 inr (false, finished)) by reflexivity.
  assert (Hge : nsteps_ no_output_interval <= loop_entry_step false finished)
    by (vm_compute; discriminate).
  split; [exact Hres |]. split; [exact Hge |].
  destruct (no_step_left_returns distributed no_output_interval false finished
              Hres Hge) as [s' [Hrun [Hcalls [_ [_ [Hstep _]]]]]].
  exists s'. split; [exact Hrun |]. rewrite Hcalls, Hstep. split; reflexivity.
Defined.

Lemma loop_leaves_counter_witness :
  moduli_nonzero distributed seven_steps /\
  run (resume_option seven_steps) (solver None) = inr (false, solver None) /\
  exists s',
    run (solve distributed seven_steps) (solver None) = inr (true, s') /\
    step_ s' = 7.
Proof.
  assert (Hnz : moduli_nonzero distributed seven_steps) by nonzero.
  assert (Hres : run (resume_option seven_steps) (solver None) =
                 inr (false, solver None)) by reflexivity.
  split; [exact Hnz |]. split; [exact Hres |].
  destruct (loop_leaves_counter_at_nsteps distributed seven_steps false
              (solver None) Hnz Hres) as [s' [added [Hrun [_ [Hstep _]]]]].
  exists s'. split; [exact Hrun |]. rewrite Hstep. reflexivity.
Defined.

Lemma second_solve_witness :
  moduli_nonzero serial plain /\
  run (resume_option plain) (solver None) = inr (false, solver None) /\
  exists s1 s2,
    run (solve serial plain) (solver None) = inr (true, s1) /\
    run (solve serial plain) s1 = inr (true, s2) /\
    executed_steps (calls s1) = [0; 1; 2] /\
    outputs s2 = outputs s1.
Proof.
  assert (Hnz : moduli_nonzero serial plain) by nonzero.
  assert (Hres : run (resume_option plain) (solver None) =
                 inr (false, solver None)) by reflexivity.
  split; [exact Hnz |]. split; [exact Hres |].
  destruct (second_solve_runs_no_step serial plain (solver None) Hnz Hres)
    as [s1 [s2 [Hrun1 [Hrun2 [_ [Hout _]]]]]].
  exists s1, s2. split; [exact Hrun1 |]. split; [exact Hrun2 |].
  split; [| exact Hout].
  assert (Hfinal : s1 = final serial plain (solver None)).
  { unfold final. now rewrite Hrun1. }
  rewrite Hfinal. vm_compute. reflexivity.
Defined.

Lemma interface_flag_witness :
  moduli_nonzero distributed plain /\
  run (resume_option plain) (solver None) = inr (false, solver None) /\
  exists s1 s2,
    run (solve distributed plain) (solver None) = inr (true, s1) /\
    run (solve distributed (with_interface true plain)) (solver None) =
      inr (true, s2) /\
    calls s2 = calls s1 /\
    interface_ s1 = false /\
    interface_ s2 = true.
Proof.
  assert (Hnz : moduli_nonzero distributed plain) by nonzero.
  assert (Hres : run (resume_option plain) (solver None) =
                 inr (false, solver None)) by reflexivity.
  split; [exact Hnz |]. split; [exact Hres |].
  destruct (interface_flag_unused distributed plain false (solver None) true
              Hnz Hres) as [s1 [s2 [Hrun1 [Hrun2 [Heq Hflag]]]]].
  exists s1, s2. split; [exact Hrun1 |]. split; [exact Hrun2 |].
  rewrite Heq. split; [reflexivity |]. split; [exact Hflag | reflexivity].
Defined.

Lemma checkpoint_count_witness :
  moduli_nonzero distributed seven_steps /\
  run (resume_option seven_steps) (solver None) = inr (false, solver None) /\
  loop_entry_step false (solver None) = 0 /\
  exists s' added,
    run (solve distributed seven_steps) (solver None) = inr (true, s') /\
    calls s' = calls (solver None) ++ added /\
    N.of_nat (List.length (filter is_hdf5 added)) = 3.
Proof.
  assert (Hnz : moduli_nonzero distributed seven_steps) by nonzero.
  assert (Hres : run (resume_option seven_steps) (solver None) =
                 inr (false, solver None)) by reflexivity.
  split; [exact Hnz |]. split; [exact Hres |]. split; [reflexivity |].
  destruct (checkpoint_count distributed seven_steps false (solver None)
              Hnz Hres eq_refl) as [s' [added [Hrun [Hcalls Hcount]]]].
  exists s', added. split; [exact Hrun |]. split; [exact Hcalls |].
  rewrite Hcount. reflexivity.
Defined.

Lemma solve_sweeps_witness :
  moduli_nonzero distributed resuming /\
  run (resume_option resuming) (solver (Some 1)) = inr (true, solver (Some 1)) /\
  exists s' added,
    run (solve distributed resuming) (solver (Some 1)) = inr (true, s') /\
    calls s' = calls (solver (Some 1)) ++ added /\
    sweeps added = [].
Proof.
  assert (Hnz : moduli_nonzero distributed resuming) by nonzero.
  assert (Hres : run (resume_option resuming) (solver (Some 1)) =
                 inr (true, solver (Some 1))) by reflexivity.
  split; [exact Hnz |]. split; [exact Hres |].
  destruct (solve_sweeps_mass_only distributed resuming true (solver (Some 1))
              Hnz Hres) as [s' [added [Hrun [Hcalls [Hsweeps _]]]]].
  exists s', added. split; [exact Hrun |]. split; [exact Hcalls |].
  rewrite Hsweeps. reflexivity.
Defined.


End EdgeRuns.
